(** * Gateway utilities of the Kong ingress controller

  A shallow embedding of [internal/controllers/gateway/gateway_utils.go]
  and proofs about the gateway state predicates, the status-condition
  pruner, the reconcile-request fan-out, the watch predicate helper and
  the listener status computation.

  Go maps are [gmap]s, slices are lists, the string-based API types
  ([ProtocolType], [SectionName], [Hostname], [ConditionStatus], ...) are
  strings, and the integer types ([PortNumber], [Generation],
  [AttachedRoutes]) are [Z]; no arithmetic is performed on them. *)

From Stdlib Require Import ZArith Ascii.
From stdpp Require Import gmap strings list fin_maps.

Local Open Scope string_scope.
Local Open Scope list_scope.

(** ** API types *)

(** [metav1.Time]; only ever produced by [metav1.Now()] and stored. *)
Definition Time := Z.

Module Condition.
(** [metav1.Condition] *)
Record t := mk {
  Type_ : string;
  Status : string;
  ObservedGeneration : Z;
  LastTransitionTime : Time;
  Reason : string;
  Message : string;
}.
End Condition.

(** [metav1.ConditionStatus] values *)
Definition ConditionTrue : string := "True".
Definition ConditionFalse : string := "False".
Definition ConditionUnknown : string := "Unknown".

(** Gateway condition types and reasons of [gatewayv1alpha2] *)
Definition GatewayConditionScheduled : string := "Scheduled".
Definition GatewayReasonScheduled : string := "Scheduled".
Definition GatewayConditionReady : string := "Ready".
Definition GatewayReasonReady : string := "Ready".

(** Listener condition types and reasons of [gatewayv1alpha2] *)
Definition ListenerConditionConflicted : string := "Conflicted".
Definition ListenerConditionDetached : string := "Detached".
Definition ListenerConditionReady : string := "Ready".
Definition ListenerReasonHostnameConflict : string := "HostnameConflict".
Definition ListenerReasonProtocolConflict : string := "ProtocolConflict".
Definition ListenerReasonNoConflicts : string := "NoConflicts".
Definition ListenerReasonPortUnavailable : string := "PortUnavailable".
Definition ListenerReasonUnsupportedProtocol : string := "UnsupportedProtocol".
Definition ListenerReasonReady : string := "Ready".
Definition ListenerReasonPending : string := "Pending".

(** [gatewayv1alpha2.ProtocolType] values *)
Definition HTTPProtocolType : string := "HTTP".
Definition HTTPSProtocolType : string := "HTTPS".
Definition TLSProtocolType : string := "TLS".
Definition TCPProtocolType : string := "TCP".
Definition UDPProtocolType : string := "UDP".

Module Listener.
(** [gatewayv1alpha2.Listener]; [Hostname] is a nullable pointer. *)
Record t := mk {
  Name : string;
  Hostname : option string;
  Port : Z;
  Protocol : string;
}.
End Listener.

Module RouteGroupKind.
(** [gatewayv1alpha2.RouteGroupKind]; [Group] is a nullable pointer. *)
Record t := mk {
  Group : option string;
  Kind : string;
}.
End RouteGroupKind.

Module ListenerStatus.
(** [gatewayv1alpha2.ListenerStatus] *)
Record t := mk {
  Name : string;
  SupportedKinds : list RouteGroupKind.t;
  AttachedRoutes : Z;
  Conditions : list Condition.t;
}.
End ListenerStatus.

Module ObjectMeta.
(** The fields of [metav1.ObjectMeta] the package reads. *)
Record t := mk {
  Name : string;
  Namespace : string;
  Generation : Z;
  Annotations : gmap string string;
}.
End ObjectMeta.

Module GatewaySpec.
Record t := mk {
  GatewayClassName : string;
  Listeners : list Listener.t;
}.
End GatewaySpec.

Module GatewayStatus.
Record t := mk {
  Conditions : list Condition.t;
  Listeners : list ListenerStatus.t;
}.
End GatewayStatus.

Module Gateway.
Record t := mk {
  Meta : ObjectMeta.t;
  Spec : GatewaySpec.t;
  Status : GatewayStatus.t;
}.

Definition Name (g : t) : string := ObjectMeta.Name (Meta g).
Definition Namespace (g : t) : string := ObjectMeta.Namespace (Meta g).
Definition Generation (g : t) : Z := ObjectMeta.Generation (Meta g).
Definition Conditions (g : t) : list Condition.t :=
  GatewayStatus.Conditions (Status g).

(** Assignment to [gateway.Status.Conditions]. *)
Definition setConditions (g : t) (conds : list Condition.t) : t :=
  mk (Meta g) (Spec g)
     (GatewayStatus.mk conds (GatewayStatus.Listeners (Status g))).
End Gateway.

Module GatewayClass.
(** [gatewayv1alpha2.GatewayClass] with [Spec.ControllerName] flattened. *)
Record t := mk {
  Meta : ObjectMeta.t;
  ControllerName : string;
}.
End GatewayClass.

(** [types.NamespacedName] inside a [reconcile.Request] *)
Module Request.
Record t := mk {
  Namespace : string;
  Name : string;
}.
End Request.

(** [client.Object]: the part of the interface the package calls. *)
Class ClientObject (A : Type) := {
  GetName : A → string;
  GetNamespace : A → string;
}.

#[export] Instance GatewayClass_ClientObject : ClientObject GatewayClass.t := {|
  GetName gwc := ObjectMeta.Name (GatewayClass.Meta gwc);
  GetNamespace gwc := ObjectMeta.Namespace (GatewayClass.Meta gwc);
|}.

#[export] Instance Gateway_ClientObject : ClientObject Gateway.t := {|
  GetName := Gateway.Name;
  GetNamespace := Gateway.Namespace;
|}.

(** ** Gateway utilities *)

(** [maxConds] is the maximum number of status conditions a Gateway can
    have at one time. *)
Definition maxConds : nat := 8.

(** [isGatewayScheduled] returns whether the gateway object was scheduled
    previously by the gateway controller. *)
Definition isGatewayScheduled (gateway : Gateway.t) : bool :=
  existsb
    (λ cond,
      (Condition.Type_ cond =? GatewayConditionScheduled)
      && (Condition.Reason cond =? GatewayReasonScheduled)
      && (Condition.Status cond =? ConditionTrue))
    (Gateway.Conditions gateway).

(** [isGatewayReady] returns whether the ready condition exists for the
    given gateway object if it matches the currently known generation of
    that object. *)
Definition isGatewayReady (gateway : Gateway.t) : bool :=
  existsb
    (λ cond,
      (Condition.Type_ cond =? GatewayConditionReady)
      && (Condition.Reason cond =? GatewayReasonReady)
      && (Condition.ObservedGeneration cond =? Gateway.Generation gateway)%Z)
    (Gateway.Conditions gateway).

(** [pruneGatewayStatusConds] cleans out old status conditions if the
    Gateway has more of them than the maximum; the slice expression
    [conds[len(conds)-maxConds:]] is [drop]. *)
Definition pruneGatewayStatusConds (gateway : Gateway.t) : Gateway.t :=
  let conds := Gateway.Conditions gateway in
  if Nat.ltb maxConds (length conds)
  then Gateway.setConditions gateway (drop (length conds - maxConds) conds)
  else gateway.

(** [reconcileGatewaysIfClassMatches] converts a list of gateways into
    the reconciliation requests for those that match the given class. *)
Definition reconcileGatewaysIfClassMatches {O} `{ClientObject O}
    (gatewayClass : O) (gateways : list Gateway.t) : list Request.t :=
  fold_left
    (λ recs gateway,
      if GatewaySpec.GatewayClassName (Gateway.Spec gateway) =? GetName gatewayClass
      then recs ++ [Request.mk (Gateway.Namespace gateway) (Gateway.Name gateway)]
      else recs)
    gateways [].

(** ** Listener status computation *)

(** The two claim maps of [getListenerStatus]: [portsToProtocol] and
    [portsToHostnames]. *)
Record Claims := mkClaims {
  portsToProtocol : gmap Z string;
  portsToHostnames : gmap Z (gmap string string);
}.

(** State of the evaluation loop: the claim maps, the number of
    [metav1.Now()] readings taken so far, and the [statuses] slice. *)
Record EvalState := mkEvalState {
  claims : Claims;
  ticks : nat;
  statuses : list ListenerStatus.t;
}.

(** [existingListenerStatuses]: later entries overwrite earlier ones of
    the same name. *)
Definition indexListenerStatuses (previous : list ListenerStatus.t)
    : gmap string ListenerStatus.t :=
  fold_left (λ m listenerStatus, <[ListenerStatus.Name listenerStatus := listenerStatus]> m)
    previous ∅.

(** Reading [m[k]] of a map of maps: a missing key yields the nil map. *)
Definition inner {A B V} `{Countable A, Countable B}
    (m : gmap A (gmap B V)) (k : A) : gmap B V :=
  default ∅ (m !! k).

(** [protocols]: for each protocol of the Kong listens, its set of ports. *)
Definition indexKongListens (kongListens : list Listener.t)
    : gmap string (gmap Z bool) :=
  fold_left
    (λ protocols listen,
      let protocols :=
        match protocols !! Listener.Protocol listen with
        | Some _ => protocols
        | None => <[Listener.Protocol listen := ∅]> protocols
        end in
      <[Listener.Protocol listen :=
          <[Listener.Port listen := true]> (inner protocols (Listener.Protocol listen))]>
        protocols)
    kongListens ∅.

(** A nil [listener.Hostname] is the empty hostname. *)
Definition hostnameOf (listener : Listener.t) : string :=
  match Listener.Hostname listener with
  | None => ""
  | Some h => h
  end.

(** [if _, ok := portsToHostnames[port]; !ok { portsToHostnames[port] = make(...) }] *)
Definition ensureHostnames (ph : gmap Z (gmap string string)) (port : Z)
    : gmap Z (gmap string string) :=
  match ph !! port with
  | Some _ => ph
  | None => <[port := ∅]> ph
  end.

(** [portsToHostnames[port][hostname] = name] *)
Definition setHostname (ph : gmap Z (gmap string string)) (port : Z)
    (hostname name : string) : gmap Z (gmap string string) :=
  <[port := <[hostname := name]> (inner ph port)]> ph.

(** Body of the inner loop of the first pass, for one condition of the
    listener's existing status. *)
Definition preseedCondition (listener : Listener.t) (c : Claims)
    (condition : Condition.t) : Claims :=
  if (Condition.Type_ condition =? ListenerConditionConflicted)
     && (Condition.Status condition =? ConditionFalse)
  then
    let pp :=
      match portsToProtocol c !! Listener.Port listener with
      | Some _ => portsToProtocol c
      | None => <[Listener.Port listener := Listener.Protocol listener]> (portsToProtocol c)
      end in
    if (Listener.Protocol listener =? HTTPProtocolType)
       || (Listener.Protocol listener =? HTTPSProtocolType)
       || (Listener.Protocol listener =? TLSProtocolType)
    then
      mkClaims pp
        (setHostname (ensureHostnames (portsToHostnames c) (Listener.Port listener))
           (Listener.Port listener) (hostnameOf listener) (Listener.Name listener))
    else mkClaims pp (portsToHostnames c)
  else c.

(** Body of the first pass for one spec listener. *)
Definition preseedListener (existing : gmap string ListenerStatus.t)
    (c : Claims) (listener : Listener.t) : Claims :=
  match existing !! Listener.Name listener with
  | Some existingListenerStatus =>
      fold_left (preseedCondition listener)
        (ListenerStatus.Conditions existingListenerStatus) c
  | None => c
  end.

(** The first pass: listeners with an existing no-conflict status. *)
Definition preseed (existing : gmap string ListenerStatus.t)
    (listeners : list Listener.t) : Claims :=
  fold_left (preseedListener existing) listeners (mkClaims ∅ ∅).

(** The cross-listener check of the second pass (source lines 165-223):
    the reason of the Conflicted condition it appends, if any, and the
    updated claim maps. *)
Definition conflictCheck (c : Claims) (listener : Listener.t)
    : option string * Claims :=
  let port := Listener.Port listener in
  let protocol := Listener.Protocol listener in
  match portsToProtocol c !! port with
  | None => (None, mkClaims (<[port := protocol]> (portsToProtocol c)) (portsToHostnames c))
  | Some claimed =>
      if (claimed =? TCPProtocolType) || (claimed =? UDPProtocolType)
      then (Some ListenerReasonProtocolConflict, c)
      else if (claimed =? protocol)
              || ((protocol =? HTTPSProtocolType) && (claimed =? TLSProtocolType))
              || ((protocol =? TLSProtocolType) && (claimed =? HTTPSProtocolType))
      then
        let ph := ensureHostnames (portsToHostnames c) port in
        let hostname := hostnameOf listener in
        match inner ph port !! hostname with
        | None =>
            (None, mkClaims (portsToProtocol c)
                     (setHostname ph port hostname (Listener.Name listener)))
        | Some owner =>
            if owner =? Listener.Name listener
            then (None, mkClaims (portsToProtocol c) ph)
            else (Some ListenerReasonHostnameConflict, mkClaims (portsToProtocol c) ph)
        end
      else (Some ListenerReasonProtocolConflict, c)
  end.

Section Reconciler.
(** [supportedRouteGroupKinds] is a package variable declared in another
    file of the package. *)
Variable supportedRouteGroupKinds : list RouteGroupKind.t.
(** [now n] is the value of the [n]-th call of [metav1.Now()] made by one
    run of [getListenerStatus]. *)
Variable now : nat → Time.

(** [status.Conditions = append(status.Conditions, metav1.Condition{...})]
    with [LastTransitionTime: metav1.Now()]. *)
Definition appendCondition (acc : list Condition.t * nat)
    (type status : string) (generation : Z) (reason message : string)
    : list Condition.t * nat :=
  (acc.1 ++ [Condition.mk type status generation (now acc.2) reason message],
   S acc.2).

(** The conditions of one listener, from the outcome of the conflict
    check on (source lines 173-276). *)
Definition listenerConditions (generation : Z)
    (protocols : gmap string (gmap Z bool)) (conflict : option string)
    (tick : nat) (listener : Listener.t) : list Condition.t * nat :=
  let acc := ([], tick) in
  let acc :=
    match conflict with
    | Some reason =>
        appendCondition acc ListenerConditionConflicted ConditionTrue generation reason ""
    | None => acc
    end in
  let acc :=
    if Nat.eqb (size (inner protocols (Listener.Protocol listener))) 0
    then appendCondition acc ListenerConditionDetached ConditionTrue generation
           ListenerReasonUnsupportedProtocol
           "no Kong listen with the requested protocol is configured"
    else acc in
  let acc :=
    match inner protocols (Listener.Protocol listener) !! Listener.Port listener with
    | None =>
        appendCondition acc ListenerConditionDetached ConditionTrue generation
          ListenerReasonPortUnavailable
          "no Kong listen with the requested protocol is configured for the requested port"
    | Some _ => acc
    end in
  if Nat.eqb (length acc.1) 0
  then
    appendCondition
      (appendCondition acc ListenerConditionConflicted ConditionFalse generation
         ListenerReasonNoConflicts "")
      ListenerConditionReady ConditionTrue generation ListenerReasonReady
      "the listener is ready and available for routing"
  else
    appendCondition acc ListenerConditionReady ConditionFalse generation
      ListenerReasonPending "the listener is not ready and cannot route requests".

(** Body of the second pass for one spec listener. *)
Definition evalListener (generation : Z)
    (protocols : gmap string (gmap Z bool))
    (existing : gmap string ListenerStatus.t)
    (st : EvalState) (listener : Listener.t) : EvalState :=
  let attachedRoutes :=
    match existing !! Listener.Name listener with
    | Some existingListenerStatus => ListenerStatus.AttachedRoutes existingListenerStatus
    | None => 0%Z
    end in
  let '(conflict, c) := conflictCheck (claims st) listener in
  let '(conditions, tick) :=
    listenerConditions generation protocols conflict (ticks st) listener in
  mkEvalState c tick
    (statuses st ++
       [ListenerStatus.mk (Listener.Name listener) supportedRouteGroupKinds
          attachedRoutes conditions]).

Definition getListenerStatus (gateway : Gateway.t)
    (kongListens : list Listener.t) : list ListenerStatus.t :=
  let existingListenerStatuses :=
    indexListenerStatuses (GatewayStatus.Listeners (Gateway.Status gateway)) in
  let protocols := indexKongListens kongListens in
  let listeners := GatewaySpec.Listeners (Gateway.Spec gateway) in
  statuses
    (fold_left
       (evalListener (Gateway.Generation gateway) protocols existingListenerStatuses)
       listeners
       (mkEvalState (preseed existingListenerStatuses listeners) 0 [])).

End Reconciler.

(** ** Watch predicate helpers *)

(** A [client.Object] as delivered by a watch, by dynamic type: a
    [*GatewayClass] pointer, non-nil or nil, an object of another type,
    or the nil interface. *)
Inductive Object :=
  | GatewayClassObject (gwc : GatewayClass.t)
  | NilGatewayClassObject
  | GatewayObject (gateway : Gateway.t)
  | ForeignObject (typeName : string)
  | NilObject.

(** How a call ends: it returns a result, or it panics (here on the
    dereference of a nil pointer). *)
Inductive Outcome (A : Type) :=
  | Returned (result : A)
  | Panicked.
Arguments Returned {A} result.
Arguments Panicked {A}.

(** The [interface{}] argument of [isGatewayClassEventInClass], by
    dynamic type: one of the four controller-runtime events or a value
    of any other type. *)
Inductive WatchEvent :=
  | CreateEvent (object : Object)
  | DeleteEvent (object : Object)
  | GenericEvent (object : Object)
  | UpdateEvent (objectOld objectNew : Object)
  | NotAnEvent (typeName : string).

(** One [log.Error] call: the message and the reported dynamic type. *)
Record LogEntry := mkLogEntry {
  logMessage : string;
  logFound : string;
}.

(** [reflect.TypeOf(obj)] as printed. *)
Definition typeOf (obj : Object) : string :=
  match obj with
  | GatewayClassObject _ => "*v1alpha2.GatewayClass"
  | NilGatewayClassObject => "*v1alpha2.GatewayClass"
  | GatewayObject _ => "*v1alpha2.Gateway"
  | ForeignObject typeName => typeName
  | NilObject => "<nil>"
  end.

Section WatchPredicates.
(** [ControllerName] is a package variable declared in another file of
    the package: the identity of this controller. *)
Variable ControllerName : string.

(** The loop over [objs]; [log] collects the errors logged so far. The
    type assertion of [obj] to a GatewayClass pointer succeeds on a nil
    pointer of that type, and reading [gwc.Spec] through it panics. *)
Fixpoint classObjectsLoop (log : list LogEntry) (objs : list Object)
    : list LogEntry * Outcome bool :=
  match objs with
  | [] => (log, Returned false)
  | obj :: objs =>
      match obj with
      | GatewayClassObject gwc =>
          if GatewayClass.ControllerName gwc =? ControllerName
          then (log, Returned true)
          else classObjectsLoop log objs
      | NilGatewayClassObject => (log, Panicked)
      | _ =>
          classObjectsLoop
            (log ++ [mkLogEntry "received invalid object type in event handlers" (typeOf obj)])
            objs
      end
  end.

Definition isGatewayClassEventInClass (watchEvent : WatchEvent)
    : list LogEntry * Outcome bool :=
  match watchEvent with
  | CreateEvent object => classObjectsLoop [] ([] ++ [object])
  | DeleteEvent object => classObjectsLoop [] ([] ++ [object])
  | GenericEvent object => classObjectsLoop [] ([] ++ [object])
  | UpdateEvent objectOld objectNew =>
      classObjectsLoop [] (([] ++ [objectOld]) ++ [objectNew])
  | NotAnEvent typeName =>
      ([mkLogEntry "received invalid event type in event handlers" typeName],
       Returned false)
  end.

End WatchPredicates.

(** ** Vocabulary of the specification *)

(** The payload objects of a watch event: one object for create, delete
    and generic events, the old and the new object for update events. *)
Definition eventObjects (watchEvent : WatchEvent) : list Object :=
  match watchEvent with
  | CreateEvent object | DeleteEvent object | GenericEvent object => [object]
  | UpdateEvent objectOld objectNew => [objectOld; objectNew]
  | NotAnEvent _ => []
  end.

(** The event is one of the four event kinds. *)
Definition isEvent (watchEvent : WatchEvent) : bool :=
  match watchEvent with
  | NotAnEvent _ => false
  | _ => true
  end.

(** The object is a GatewayClass controlled by [controllerName]. *)
Definition inClass (controllerName : string) (obj : Object) : Prop :=
  ∃ gwc, obj = GatewayClassObject gwc ∧ GatewayClass.ControllerName gwc = controllerName.

(** A condition of the given type, status and reason. *)
Definition isCondition (type status reason : string) (c : Condition.t) : bool :=
  (Condition.Type_ c =? type) && (Condition.Status c =? status)
  && (Condition.Reason c =? reason).

(** The condition list has a condition of the given type, status and reason. *)
Definition hasCondition (type status reason : string) (conds : list Condition.t) : bool :=
  existsb (isCondition type status reason) conds.

(** The condition list has a condition of the given type and status. *)
Definition hasConditionStatus (type status : string) (conds : list Condition.t) : bool :=
  existsb (λ c, (Condition.Type_ c =? type) && (Condition.Status c =? status)) conds.

(** Number of conditions of the given type. *)
Definition countType (type : string) (conds : list Condition.t) : nat :=
  length (filter (λ c, Condition.Type_ c = type) conds).

(** The listener's previous status carries a Conflicted=False condition. *)
Definition previouslyUnconflicted (previous : list ListenerStatus.t)
    (listener : Listener.t) : bool :=
  match indexListenerStatuses previous !! Listener.Name listener with
  | Some existingListenerStatus =>
      hasConditionStatus ListenerConditionConflicted ConditionFalse
        (ListenerStatus.Conditions existingListenerStatus)
  | None => false
  end.

(** The data plane has a listen of the given protocol. *)
Definition listensProtocol (kongListens : list Listener.t) (protocol : string) : bool :=
  existsb (λ listen, Listener.Protocol listen =? protocol) kongListens.

(** The data plane has a listen of the given protocol on the given port. *)
Definition listensOn (kongListens : list Listener.t) (protocol : string) (port : Z) : bool :=
  existsb
    (λ listen, (Listener.Protocol listen =? protocol) && (Listener.Port listen =? port)%Z)
    kongListens.

(** Protocols that may share a port, as the second pass decides it for a
    listener of [protocol] on a port claimed for [claimed]. *)
Definition compatible (claimed protocol : string) : bool :=
  (claimed =? protocol)
  || ((protocol =? HTTPSProtocolType) && (claimed =? TLSProtocolType))
  || ((protocol =? TLSProtocolType) && (claimed =? HTTPSProtocolType)).

(** The protocols whose listeners carry hostnames. *)
Definition hostnameProtocol (protocol : string) : bool :=
  (protocol =? HTTPProtocolType) || (protocol =? HTTPSProtocolType)
  || (protocol =? TLSProtocolType).

(** The status computed for the spec listener at index [i]. *)
Definition statusAt (supported : list RouteGroupKind.t) (now : nat → Time)
    (gateway : Gateway.t) (kongListens : list Listener.t) (i : nat)
    : option (list Condition.t) :=
  ListenerStatus.Conditions <$> (getListenerStatus supported now gateway kongListens !! i).

(** A Gateway is ready for its current generation, in the words of the
    specification: some top-level condition has type Ready, reason Ready,
    status True and was observed at the Gateway's generation. *)
Definition readyForGeneration (gateway : Gateway.t) : Prop :=
  ∃ cond, cond ∈ Gateway.Conditions gateway
    ∧ Condition.Type_ cond = GatewayConditionReady
    ∧ Condition.Reason cond = GatewayReasonReady
    ∧ Condition.Status cond = ConditionTrue
    ∧ Condition.ObservedGeneration cond = Gateway.Generation gateway.

(** The reconcile request naming a Gateway. *)
Definition requestFor (gateway : Gateway.t) : Request.t :=
  Request.mk (Gateway.Namespace gateway) (Gateway.Name gateway).

(** The Gateway references the class called [className]. *)
Definition inClassNamed (className : string) (gateway : Gateway.t) : Prop :=
  GatewaySpec.GatewayClassName (Gateway.Spec gateway) = className.

#[export] Instance inClassNamed_dec className gateway :
  Decision (inClassNamed className gateway).
Proof. unfold inClassNamed. apply _. Defined.

(** ** Auxiliary views of the two passes *)

(** The claim maps after the second pass has processed [listeners]. *)
Definition claimsAfter (c : Claims) (listeners : list Listener.t) : Claims :=
  fold_left (λ c listener, (conflictCheck c listener).2) listeners c.

(** The effect of the first pass for a listener whose existing status has
    at least one Conflicted=False condition. *)
Definition preseedOnce (c : Claims) (listener : Listener.t) : Claims :=
  preseedCondition listener c
    (Condition.mk ListenerConditionConflicted ConditionFalse 0%Z 0%Z "" "").

(** The claims of one port: the protocol it is claimed for and the
    owners of its hostnames. *)
Definition portView (c : Claims) (port : Z) : option string * gmap string string :=
  (portsToProtocol c !! port, inner (portsToHostnames c) port).

(** ** Sample inputs *)

Definition sampleGateway (generation : Z) (conditions : list Condition.t)
    (listeners : list Listener.t) (previous : list ListenerStatus.t) : Gateway.t :=
  Gateway.mk (ObjectMeta.mk "gw" "default" generation ∅)
    (GatewaySpec.mk "kong" listeners)
    (GatewayStatus.mk conditions previous).

Definition sampleCondition (type status reason : string) (generation : Z) : Condition.t :=
  Condition.mk type status generation 0%Z reason "".

Definition sampleClock : nat → Time := λ n, Z.of_nat n.

Definition sampleKinds : list RouteGroupKind.t :=
  [RouteGroupKind.mk (Some "gateway.networking.k8s.io") "HTTPRoute"].

(** The listens of a data plane. *)
Definition listen (protocol : string) (port : Z) : Listener.t :=
  Listener.mk "" None port protocol.

(** A previous listener status with a single Conflicted=False condition. *)
Definition unconflictedStatus (name : string) : ListenerStatus.t :=
  ListenerStatus.mk name sampleKinds 0%Z
    [sampleCondition ListenerConditionConflicted ConditionFalse ListenerReasonNoConflicts 1%Z].

(** A Gateway at generation 4 whose only condition is Ready with reason
    Ready, observed at generation 4, but with status False. *)
Definition unreadyGateway : Gateway.t :=
  sampleGateway 4
    [sampleCondition GatewayConditionReady ConditionFalse GatewayReasonReady 4%Z] [] [].

(** Twelve and five numbered top-level conditions. *)
Definition numberedConditions (n : nat) : list Condition.t :=
  map (λ k, sampleCondition GatewayConditionReady ConditionUnknown "Pending" (Z.of_nat k))
    (seq 0 n).

(** The scenario of the specification: an HTTP listener on port 80 and an
    HTTPS listener on port 443, over a data plane listening on HTTP 80. *)
Definition webGateway : Gateway.t :=
  sampleGateway 1 []
    [Listener.mk "web" None 80 HTTPProtocolType;
     Listener.mk "web-tls" (Some "a.com") 443 HTTPSProtocolType] [].

Definition webListens : list Listener.t := [listen HTTPProtocolType 80].

(** A TCP and an HTTP listener on port 80, in that order, no previous status. *)
Definition tcpHttpGateway : Gateway.t :=
  sampleGateway 1 []
    [Listener.mk "tcp" None 80 TCPProtocolType;
     Listener.mk "http" None 80 HTTPProtocolType] [].

Definition tcpHttpListens : list Listener.t :=
  [listen TCPProtocolType 80; listen HTTPProtocolType 80].

(** Two listeners on port 80 with hostname a.com. *)
Definition hostListeners (protocolA protocolB : string) : list Listener.t :=
  [Listener.mk "a" (Some "a.com") 80 protocolA;
   Listener.mk "b" (Some "a.com") 80 protocolB].

Definition hostListens : list Listener.t :=
  [listen HTTPProtocolType 80; listen HTTPSProtocolType 80].

(** Listener a is HTTP and previously unconflicted, listener b is HTTPS
    and has no previous status. *)
Definition mixedGateway : Gateway.t :=
  sampleGateway 1 [] (hostListeners HTTPProtocolType HTTPSProtocolType)
    [unconflictedStatus "a"].

(** Both HTTP, listener a previously unconflicted; b first in the spec. *)
Definition precedenceGateway : Gateway.t :=
  sampleGateway 1 [] (rev (hostListeners HTTPProtocolType HTTPProtocolType))
    [unconflictedStatus "a"].

(** Two HTTPS listeners with hostname a.com and no previous status. *)
Definition twoHttpsGateway : Gateway.t :=
  sampleGateway 1 [] (hostListeners HTTPSProtocolType HTTPSProtocolType) [].

(** Both listeners previously unconflicted: mixed and equal protocols. *)
Definition bothSeededMixedGateway : Gateway.t :=
  sampleGateway 1 [] (hostListeners HTTPProtocolType HTTPSProtocolType)
    [unconflictedStatus "a"; unconflictedStatus "b"].

Definition bothSeededGateway : Gateway.t :=
  sampleGateway 1 [] (hostListeners HTTPProtocolType HTTPProtocolType)
    [unconflictedStatus "a"; unconflictedStatus "b"].

(** Sample watch payloads. *)
Definition sampleClass (controllerName : string) : GatewayClass.t :=
  GatewayClass.mk (ObjectMeta.mk "kong" "" 1 ∅) controllerName.

(** ** Publish service reference *)

Module NamespacedName.
(** [types.NamespacedName] *)
Record t := mk {
  Namespace : string;
  Name : string;
}.
End NamespacedName.

(** [strings.Index(s, sep)] with the slices [s[:m]] and [s[m+1:]], for a
    one-byte separator: the parts before and after its first occurrence,
    if there is one. *)
Fixpoint cut (sep : ascii) (s : string) : option (string * string) :=
  match s with
  | EmptyString => None
  | String c rest =>
      if Ascii.eqb c sep then Some (EmptyString, rest)
      else
        match cut sep rest with
        | Some (before, after) => Some (String c before, after)
        | None => None
        end
  end.

(** [strings.SplitN(s, sep, n)] of the Go standard library, for a one-byte
    separator and [n >= 0]: at most [n] substrings, the last one being the
    unsplit remainder; [n = 0] gives nil. *)
Fixpoint SplitN (s : string) (sep : ascii) (n : nat) : list string :=
  match n with
  | 0 => []
  | 1 => [s]
  | S n' =>
      match cut sep s with
      | None => [s]
      | Some (before, after) => before :: SplitN after sep n'
      end
  end.

(** [getRefFromPublishService] splits a publish service string in the
    format namespace/name into a [types.NamespacedName] and produces an
    error (its message) if the contents do not match that format. *)
Definition getRefFromPublishService (publishService : string)
    : NamespacedName.t + string :=
  let publishServiceSplit := SplitN publishService "/"%char 3 in
  if negb (Nat.eqb (length publishServiceSplit) 2)
  then
    inr (String.append
           "--publish-service expected in format 'namespace/name' but got "
           publishService)
  else
    inl (NamespacedName.mk (nth 0 publishServiceSplit "") (nth 1 publishServiceSplit "")).

(** The byte occurs in the string. *)
Fixpoint occurs (c : ascii) (s : string) : bool :=
  match s with
  | EmptyString => false
  | String c' rest => Ascii.eqb c' c || occurs c rest
  end.

(** Number of occurrences of the byte in the string. *)
Fixpoint occurrences (c : ascii) (s : string) : nat :=
  match s with
  | EmptyString => 0
  | String c' rest => (if Ascii.eqb c' c then 1 else 0) + occurrences c rest
  end.

(** ** Unmanaged gateways *)

Section Unmanaged.
(** [ControllerName] and [annotations.ExtractUnmanagedGatewayMode] are
    declared outside this file. *)
Variable ControllerName : string.
Variable ExtractUnmanagedGatewayMode : gmap string string → string * bool.

(** [isGatewayInClassAndUnmanaged] returns whether the combination of
    gateway and class is controlled by this controller and the gateway
    is configured for unmanaged mode. *)
Definition isGatewayInClassAndUnmanaged (gatewayClass : GatewayClass.t)
    (gateway : Gateway.t) : bool :=
  let '(_, ok) :=
    ExtractUnmanagedGatewayMode (ObjectMeta.Annotations (Gateway.Meta gateway)) in
  ok && (GatewayClass.ControllerName gatewayClass =? ControllerName).

End Unmanaged.

(** ** Object metadata ([internal/util/objectmeta.go]) *)

Module GroupVersionKind.
(** [schema.GroupVersionKind] *)
Record t := mk {
  Group : string;
  Version : string;
  Kind : string;
}.
(** The zero value. *)
Definition zero : t := mk "" "" "".
End GroupVersionKind.

Module K8sObjectInfo.
(** [K8sObjectInfo] describes a Kubernetes object. *)
Record t := mk {
  Name : string;
  Namespace : string;
  Annotations : gmap string string;
  GroupVersionKind : GroupVersionKind.t;
}.
End K8sObjectInfo.

(** [deepCopy]: a fresh map filled by ranging over [m]. *)
Definition deepCopy (m : gmap string string) : gmap string string :=
  map_fold (λ k v result, <[k := v]> result) ∅ m.

(** [ObjMetaTyper]: [metav1.Object] together with [GroupVersionKind()]. *)
Class ObjMetaTyper (A : Type) `{ClientObject A} := {
  GetAnnotations : A → gmap string string;
  GetGroupVersionKind : A → GroupVersionKind.t;
}.

Section ObjectMeta.
(** [schema.GroupVersionKind.String] belongs to the API machinery. *)
Variable gvkString : GroupVersionKind.t → string.

Definition FromK8sObject {A} `{ObjMetaTyper A} (obj : A) : K8sObjectInfo.t :=
  let ret :=
    K8sObjectInfo.mk (GetName obj) (GetNamespace obj) (deepCopy (GetAnnotations obj))
      GroupVersionKind.zero in
  let gvk := GetGroupVersionKind obj in
  if negb (gvkString gvk =? "")
  then
    K8sObjectInfo.mk (K8sObjectInfo.Name ret) (K8sObjectInfo.Namespace ret)
      (K8sObjectInfo.Annotations ret) gvk
  else ret.

End ObjectMeta.

(** ** Further vocabulary *)

(** The last previous status of the given listener name, if any. *)
Definition previousStatus (previous : list ListenerStatus.t) (name : string)
    : option ListenerStatus.t :=
  last (filter (λ listenerStatus, ListenerStatus.Name listenerStatus = name) previous).

(** The object has the dynamic type [*GatewayClass]. *)
Definition isGatewayClassObject (obj : Object) : bool :=
  match obj with
  | GatewayClassObject _ | NilGatewayClassObject => true
  | _ => false
  end.

(** The object is a nil [*GatewayClass] pointer. *)
Definition nilClassPointer (obj : Object) : bool :=
  match obj with
  | NilGatewayClassObject => true
  | _ => false
  end.

(** A Gateway sample with a TCP listener previously unconflicted. *)
Definition tcpSeededGateway : Gateway.t :=
  sampleGateway 2 [] [Listener.mk "tcp" None 9000 TCPProtocolType]
    [unconflictedStatus "tcp"].

(** Three HTTP listeners on port 80, the last two with hostname b.com. *)
Definition threeHttpGateway : Gateway.t :=
  sampleGateway 1 []
    [Listener.mk "a" (Some "a.com") 80 HTTPProtocolType;
     Listener.mk "b" (Some "b.com") 80 HTTPProtocolType;
     Listener.mk "c" (Some "b.com") 80 HTTPProtocolType] [].

(** A sample object implementing [ObjMetaTyper]. *)
Record SampleObject := mkSampleObject {
  sampleMeta : ObjectMeta.t;
  sampleGVK : GroupVersionKind.t;
}.

#[export] Instance SampleObject_ClientObject : ClientObject SampleObject := {|
  GetName o := ObjectMeta.Name (sampleMeta o);
  GetNamespace o := ObjectMeta.Namespace (sampleMeta o);
|}.

#[export] Instance SampleObject_ObjMetaTyper : ObjMetaTyper SampleObject := {|
  GetAnnotations o := ObjectMeta.Annotations (sampleMeta o);
  GetGroupVersionKind := sampleGVK;
|}.

(** The error message of [getRefFromPublishService]. *)
Definition publishServiceError (publishService : string) : string :=
  String.append "--publish-service expected in format 'namespace/name' but got "
    publishService.

(** [namespace/name] *)
Definition publishServiceOf (ref : NamespacedName.t) : string :=
  String.append (NamespacedName.Namespace ref)
    (String "/"%char (NamespacedName.Name ref)).

(** A sample annotation parser: the unmanaged mode is the value of one
    fixed annotation. *)
Definition sampleExtractUnmanaged (anns : gmap string string) : string * bool :=
  match anns !! "konghq.com/gateway-unmanaged" with
  | Some value => (value, true)
  | None => ("", false)
  end.

Definition unmanagedGateway : Gateway.t :=
  Gateway.mk
    (ObjectMeta.mk "gw" "default" 1 (<["konghq.com/gateway-unmanaged" := "true"]> ∅))
    (GatewaySpec.mk "kong" []) (GatewayStatus.mk [] []).

(** The log entry for a payload object of unexpected type. *)
Definition invalidObjectEntry (obj : Object) : LogEntry :=
  mkLogEntry "received invalid object type in event handlers" (typeOf obj).

(** A sample string form of a GroupVersionKind. *)
Definition sampleGvkString (gvk : GroupVersionKind.t) : string :=
  String.append (GroupVersionKind.Group gvk)
    (String.append "/" (String.append (GroupVersionKind.Version gvk)
       (String.append ", Kind=" (GroupVersionKind.Kind gvk)))).

Definition sampleObject : SampleObject :=
  mkSampleObject (ObjectMeta.mk "svc" "default" 1 (<["a" := "b"]> ∅))
    (GroupVersionKind.mk "" "v1" "Service").

(** The routes carried over for a listener: those of its last previous
    status, or 0 when it has none. *)
Definition carriedRoutes (previous : list ListenerStatus.t) (listener : Listener.t) : Z :=
  match previousStatus previous (Listener.Name listener) with
  | Some existingListenerStatus => ListenerStatus.AttachedRoutes existingListenerStatus
  | None => 0%Z
  end.

(** A condition as [getListenerStatus] emits them for a given generation. *)
Definition emittedCondition (generation : Z) (c : Condition.t) : Prop :=
  Condition.ObservedGeneration c = generation
  ∧ (Condition.Type_ c = ListenerConditionConflicted
     ∨ Condition.Type_ c = ListenerConditionDetached
     ∨ Condition.Type_ c = ListenerConditionReady)
  ∧ (Condition.Status c = ConditionTrue ∨ Condition.Status c = ConditionFalse).

(** The listener is of TCP or UDP protocol. *)
Definition exclusiveProtocol (protocol : string) : bool :=
  (protocol =? TCPProtocolType) || (protocol =? UDPProtocolType).

(** The Gateway as the next reconciliation reads it once the computed
    listener statuses have been stored in its status. *)
Definition storeListenerStatuses (gateway : Gateway.t)
    (listenerStatuses : list ListenerStatus.t) : Gateway.t :=
  Gateway.mk (Gateway.Meta gateway) (Gateway.Spec gateway)
    (GatewayStatus.mk (Gateway.Conditions gateway) listenerStatuses).

(** A Gateway with a single TCP listener and no previous status. *)
Definition tcpGateway : Gateway.t :=
  sampleGateway 1 [] [Listener.mk "tcp" None 9000 TCPProtocolType] [].

(** * Proofs *)

(** ** Gateway state predicates *)

Lemma isGatewayScheduled_iff gateway :
  isGatewayScheduled gateway = true ↔
  ∃ cond, cond ∈ Gateway.Conditions gateway
    ∧ Condition.Type_ cond = GatewayConditionScheduled
    ∧ Condition.Reason cond = GatewayReasonScheduled
    ∧ Condition.Status cond = ConditionTrue.
Proof.
  unfold isGatewayScheduled. rewrite existsb_exists. split.
  - intros (cond & Hin & Hc). apply list_elem_of_In in Hin.
    rewrite !andb_true_iff, !String.eqb_eq in Hc.
    destruct Hc as [[? ?] ?]. eauto 10.
  - intros (cond & Hin & ? & ? & ?). exists cond. split; [by apply list_elem_of_In|].
    rewrite !andb_true_iff, !String.eqb_eq. done.
Qed.

(** What [isGatewayReady] decides: the status of the condition is not
    inspected. *)
Lemma isGatewayReady_iff gateway :
  isGatewayReady gateway = true ↔
  ∃ cond, cond ∈ Gateway.Conditions gateway
    ∧ Condition.Type_ cond = GatewayConditionReady
    ∧ Condition.Reason cond = GatewayReasonReady
    ∧ Condition.ObservedGeneration cond = Gateway.Generation gateway.
Proof.
  unfold isGatewayReady. rewrite existsb_exists. split.
  - intros (cond & Hin & Hc). apply list_elem_of_In in Hin.
    rewrite !andb_true_iff, !String.eqb_eq, Z.eqb_eq in Hc.
    destruct Hc as [[? ?] ?]. eauto 10.
  - intros (cond & Hin & ? & ? & ?). exists cond. split; [by apply list_elem_of_In|].
    rewrite !andb_true_iff, !String.eqb_eq, Z.eqb_eq. done.
Qed.

(** A Gateway that is ready in the words of the specification is reported
    ready. *)
Lemma readyForGeneration_isGatewayReady gateway :
  readyForGeneration gateway → isGatewayReady gateway = true.
Proof.
  intros (cond & ? & ? & ? & ? & ?). apply isGatewayReady_iff. eauto.
Qed.

(** A Ready condition observed at another generation does not count. *)
Lemma isGatewayReady_stale gateway :
  (∀ cond, cond ∈ Gateway.Conditions gateway →
     Condition.ObservedGeneration cond ≠ Gateway.Generation gateway) →
  isGatewayReady gateway = false.
Proof.
  intros Hstale. apply not_true_is_false. rewrite isGatewayReady_iff.
  intros (cond & Hin & _ & _ & Hgen). by eapply Hstale.
Qed.

(** C1: the claim that [isGatewayReady] holds exactly when a Ready
    condition with reason Ready, status True and the current generation
    exists fails on [unreadyGateway]: its only condition has status False,
    so the Gateway is not ready in the words of the specification, yet
    [isGatewayReady] returns true, whereas the sibling [isGatewayScheduled]
    does test the status. *)
Theorem isGatewayReady_accepts_status_False :
  isGatewayReady unreadyGateway = true ∧ ¬ readyForGeneration unreadyGateway.
Proof.
  split; [reflexivity|].
  intros (cond & Hin & _ & _ & Hstatus & _).
  apply list_elem_of_singleton in Hin. subst cond. discriminate Hstatus.
Qed.

(** ** Status condition pruner *)

Lemma pruneGatewayStatusConds_conditions gateway :
  Gateway.Conditions (pruneGatewayStatusConds gateway) =
  drop (length (Gateway.Conditions gateway) - maxConds) (Gateway.Conditions gateway).
Proof.
  unfold pruneGatewayStatusConds.
  destruct (Nat.ltb_spec maxConds (length (Gateway.Conditions gateway))) as [Hlt|Hle].
  - reflexivity.
  - replace (length (Gateway.Conditions gateway) - maxConds) with 0 by lia.
    reflexivity.
Qed.

Lemma pruneGatewayStatusConds_compliant gateway :
  (length (Gateway.Conditions gateway) ≤ maxConds)%nat →
  pruneGatewayStatusConds gateway = gateway.
Proof.
  intros Hle. unfold pruneGatewayStatusConds.
  destruct (Nat.ltb_spec maxConds (length (Gateway.Conditions gateway))); [lia|done].
Qed.

Lemma pruneGatewayStatusConds_length gateway :
  length (Gateway.Conditions (pruneGatewayStatusConds gateway)) =
  Nat.min maxConds (length (Gateway.Conditions gateway)).
Proof. rewrite pruneGatewayStatusConds_conditions, length_drop. lia. Qed.

(** C7: [pruneGatewayStatusConds] returns the Gateway unchanged when it
    has at most 8 top-level conditions; otherwise only the conditions
    change, and the new sequence consists of exactly 8 entries that are
    the tail of the old one, in order; pruning twice equals pruning once. *)
Theorem pruneGatewayStatusConds_spec gateway :
  ((length (Gateway.Conditions gateway) ≤ 8)%nat →
     pruneGatewayStatusConds gateway = gateway)
  ∧ ((8 < length (Gateway.Conditions gateway))%nat →
       (∃ dropped,
          Gateway.Conditions gateway =
            dropped ++ Gateway.Conditions (pruneGatewayStatusConds gateway))
       ∧ length (Gateway.Conditions (pruneGatewayStatusConds gateway)) = 8
       ∧ Gateway.Meta (pruneGatewayStatusConds gateway) = Gateway.Meta gateway
       ∧ Gateway.Spec (pruneGatewayStatusConds gateway) = Gateway.Spec gateway
       ∧ GatewayStatus.Listeners (Gateway.Status (pruneGatewayStatusConds gateway)) =
           GatewayStatus.Listeners (Gateway.Status gateway))
  ∧ pruneGatewayStatusConds (pruneGatewayStatusConds gateway) =
      pruneGatewayStatusConds gateway.
Proof.
  split; [apply pruneGatewayStatusConds_compliant|]. split.
  - intros Hlt. split.
    + exists (take (length (Gateway.Conditions gateway) - maxConds)
                (Gateway.Conditions gateway)).
      rewrite pruneGatewayStatusConds_conditions. symmetry. apply take_drop.
    + split.
      * rewrite pruneGatewayStatusConds_length. unfold maxConds. lia.
      * unfold pruneGatewayStatusConds.
        destruct (Nat.ltb_spec maxConds (length (Gateway.Conditions gateway)));
          [done | unfold maxConds in *; lia].
  - apply pruneGatewayStatusConds_compliant.
    rewrite pruneGatewayStatusConds_length. lia.
Qed.

(** A Gateway with 12 conditions keeps exactly the last 8, in order. *)
Lemma pruneGatewayStatusConds_spec_witness :
  (∃ dropped,
     numberedConditions 12 =
       dropped ++ Gateway.Conditions
         (pruneGatewayStatusConds (sampleGateway 1 (numberedConditions 12) [] [])))
  ∧ length (Gateway.Conditions
      (pruneGatewayStatusConds (sampleGateway 1 (numberedConditions 12) [] []))) = 8.
Proof.
  destruct (pruneGatewayStatusConds_spec (sampleGateway 1 (numberedConditions 12) [] []))
    as (_ & Hlong & _).
  destruct Hlong as (Htail & Hlen & _); [vm_compute; lia|].
  split; [exact Htail | exact Hlen].
Defined.

(** ** Reconcile request fan-out *)

Lemma reconcile_loop {O} `{ClientObject O} (gatewayClass : O) gateways recs :
  fold_left
    (λ recs gateway,
      if GatewaySpec.GatewayClassName (Gateway.Spec gateway) =? GetName gatewayClass
      then recs ++ [Request.mk (Gateway.Namespace gateway) (Gateway.Name gateway)]
      else recs)
    gateways recs =
  recs ++ map requestFor (filter (inClassNamed (GetName gatewayClass)) gateways).
Proof.
  revert recs. induction gateways as [|gateway gateways IH]; intros recs; simpl.
  - by rewrite app_nil_r.
  - rewrite IH. rewrite filter_cons. unfold inClassNamed at 2.
    destruct (String.eqb_spec
                (GatewaySpec.GatewayClassName (Gateway.Spec gateway))
                (GetName gatewayClass)) as [Heq|Hne].
    + rewrite decide_True by done. simpl. by rewrite <- app_assoc.
    + by rewrite decide_False.
Qed.

(** C9: the requests returned for a class object are the (namespace, name)
    pairs of exactly the Gateways whose class name equals the object's
    name, one per Gateway and in the order of the input list. *)
Theorem reconcileGatewaysIfClassMatches_spec {O} `{ClientObject O}
    (gatewayClass : O) (gateways : list Gateway.t) :
  reconcileGatewaysIfClassMatches gatewayClass gateways =
  map requestFor (filter (inClassNamed (GetName gatewayClass)) gateways).
Proof. unfold reconcileGatewaysIfClassMatches. by rewrite reconcile_loop. Qed.

(** ** Watch predicate helper *)

Lemma inClass_cons controllerName obj objs :
  ¬ inClass controllerName obj →
  (∃ o, o ∈ obj :: objs ∧ inClass controllerName o) ↔
  (∃ o, o ∈ objs ∧ inClass controllerName o).
Proof.
  intros Hno. split.
  - intros (o & [->|Hin]%elem_of_cons & Ho); [done | eauto].
  - intros (o & Hin & Ho). exists o. split; [by apply elem_of_cons; right | done].
Qed.

(** Over objects none of which is a nil class pointer the loop returns,
    and it returns true exactly when one of them is in class. *)
Lemma classObjectsLoop_returns controllerName objs log :
  (∀ obj, obj ∈ objs → obj ≠ NilGatewayClassObject) →
  ∃ result,
    (classObjectsLoop controllerName log objs).2 = Returned result
    ∧ (result = true ↔ ∃ obj, obj ∈ objs ∧ inClass controllerName obj).
Proof.
  revert log. induction objs as [|obj objs IH]; intros log Hnonnil; simpl.
  - exists false. split; [done|]. split; [done|].
    intros (obj & Hin & _). by apply elem_of_nil in Hin.
  - assert (Htail : ∀ o, o ∈ objs → o ≠ NilGatewayClassObject).
    { intros o Hin. apply Hnonnil. by apply elem_of_cons; right. }
    destruct obj as [gwc| |gateway|typeName|].
    + destruct (String.eqb_spec (GatewayClass.ControllerName gwc) controllerName)
        as [Heq|Hne].
      * exists true. split; [done|]. split; [|done]. intros _.
        exists (GatewayClassObject gwc).
        split; [apply elem_of_cons; by left | by exists gwc].
      * destruct (IH log Htail) as (result & Hresult & Hiff).
        exists result. split; [done|]. rewrite Hiff. symmetry. apply inClass_cons.
        intros (gwc' & [= <-] & Hname). done.
    + exfalso. apply (Hnonnil NilGatewayClassObject); [apply elem_of_cons; by left|done].
    + destruct (IH (log ++ [mkLogEntry "received invalid object type in event handlers"
                              (typeOf (GatewayObject gateway))]) Htail)
        as (result & Hresult & Hiff).
      exists result. split; [done|]. rewrite Hiff. symmetry. apply inClass_cons.
      by intros (gwc' & [=] & _).
    + destruct (IH (log ++ [mkLogEntry "received invalid object type in event handlers"
                              (typeOf (ForeignObject typeName))]) Htail)
        as (result & Hresult & Hiff).
      exists result. split; [done|]. rewrite Hiff. symmetry. apply inClass_cons.
      by intros (gwc' & [=] & _).
    + destruct (IH (log ++ [mkLogEntry "received invalid object type in event handlers"
                              (typeOf NilObject)]) Htail)
        as (result & Hresult & Hiff).
      exists result. split; [done|]. rewrite Hiff. symmetry. apply inClass_cons.
      by intros (gwc' & [=] & _).
Qed.

(** The loop panics exactly when it reaches a nil class pointer, that is
    when no object before the pointer is in class. *)
Lemma classObjectsLoop_panics controllerName objs log :
  (classObjectsLoop controllerName log objs).2 = Panicked ↔
  ∃ before after,
    objs = before ++ NilGatewayClassObject :: after
    ∧ ∀ obj, obj ∈ before → ¬ inClass controllerName obj.
Proof.
  revert log. induction objs as [|obj objs IH]; intros log; simpl.
  - split; [done|]. intros (before & after & Hsplit & _). by destruct before.
  - assert (Hstep : ¬ inClass controllerName obj → obj ≠ NilGatewayClassObject →
      ((∃ before after, obj :: objs = before ++ NilGatewayClassObject :: after
          ∧ ∀ o, o ∈ before → ¬ inClass controllerName o) ↔
       (∃ before after, objs = before ++ NilGatewayClassObject :: after
          ∧ ∀ o, o ∈ before → ¬ inClass controllerName o))).
    { intros Hno Hnonnil. split.
      - intros (before & after & Hsplit & Hbefore).
        destruct before as [|first before]; simpl in Hsplit; [congruence|].
        injection Hsplit as <- ->. exists before, after. split; [done|].
        intros o Hin. apply Hbefore. by apply elem_of_cons; right.
      - intros (before & after & -> & Hbefore). exists (obj :: before), after.
        split; [done|]. intros o [->|Hin]%elem_of_cons; [done|by apply Hbefore]. }
    destruct obj as [gwc| |gateway|typeName|].
    + destruct (String.eqb_spec (GatewayClass.ControllerName gwc) controllerName)
        as [Heq|Hne].
      * split; [done|]. intros (before & after & Hsplit & Hbefore).
        destruct before as [|first before]; simpl in Hsplit; [done|].
        injection Hsplit as <- _. exfalso.
        apply (Hbefore (GatewayClassObject gwc)); [apply elem_of_cons; by left|].
        by exists gwc.
      * rewrite IH. symmetry. apply Hstep; [|done].
        intros (gwc' & [= <-] & Hname). done.
    + split; [|done]. intros _. exists [], objs. split; [done|].
      intros o Hin. by apply elem_of_nil in Hin.
    + rewrite IH. symmetry. apply Hstep; [|done]. by intros (gwc' & [=] & _).
    + rewrite IH. symmetry. apply Hstep; [|done]. by intros (gwc' & [=] & _).
    + rewrite IH. symmetry. apply Hstep; [|done]. by intros (gwc' & [=] & _).
Qed.

(** [isGatewayClassEventInClass] panics exactly when a nil class pointer
    of the payload is reached. *)
Lemma isGatewayClassEventInClass_panics controllerName watchEvent :
  (isGatewayClassEventInClass controllerName watchEvent).2 = Panicked ↔
  ∃ before after,
    eventObjects watchEvent = before ++ NilGatewayClassObject :: after
    ∧ ∀ obj, obj ∈ before → ¬ inClass controllerName obj.
Proof.
  destruct watchEvent as [object|object|object|objectOld objectNew|typeName];
    try apply classObjectsLoop_panics.
  split; [discriminate|]. intros (before & after & Hsplit & _).
  simpl in Hsplit. by destruct before.
Qed.

(** C8 (amended): for every watch event none of whose payload objects is
    a nil [*GatewayClass] pointer, [isGatewayClassEventInClass] returns;
    the result is true exactly when one of the event's payload objects is
    a GatewayClass whose controller name is this controller's; a payload
    that is not one of the four event kinds, or none of whose objects is
    a GatewayClass, yields false. *)
Theorem isGatewayClassEventInClass_spec controllerName watchEvent :
  (∀ obj, obj ∈ eventObjects watchEvent → obj ≠ NilGatewayClassObject) →
  ∃ result,
    (isGatewayClassEventInClass controllerName watchEvent).2 = Returned result
    ∧ (result = true ↔
         ∃ obj, obj ∈ eventObjects watchEvent ∧ inClass controllerName obj)
    ∧ (isEvent watchEvent = false → result = false)
    ∧ ((∀ obj gwc, obj ∈ eventObjects watchEvent → obj ≠ GatewayClassObject gwc) →
         result = false).
Proof.
  intros Hnonnil.
  assert (Hreturns : ∃ result,
    (isGatewayClassEventInClass controllerName watchEvent).2 = Returned result
    ∧ (result = true ↔
         ∃ obj, obj ∈ eventObjects watchEvent ∧ inClass controllerName obj)).
  { destruct watchEvent as [object|object|object|objectOld objectNew|typeName];
      try (by apply classObjectsLoop_returns).
    exists false. split; [done|]. split; [done|].
    intros (obj & Hin & _). by apply elem_of_nil in Hin. }
  destruct Hreturns as (result & Hresult & Hiff).
  exists result. split; [done|]. split; [done|]. split.
  - intros Hevent. destruct watchEvent; try done.
    simpl in Hresult. by injection Hresult as <-.
  - intros Hnone. apply not_true_is_false. rewrite Hiff.
    intros (obj & Hin & gwc & -> & _). by eapply Hnone.
Qed.

(** An update event from a foreign class to this controller's class is
    relevant. *)
Lemma isGatewayClassEventInClass_spec_witness :
  ∃ result,
    (isGatewayClassEventInClass "konghq.com/kic-gateway-controller"
       (UpdateEvent (GatewayClassObject (sampleClass "example.com/other"))
          (GatewayClassObject (sampleClass "konghq.com/kic-gateway-controller")))).2 =
      Returned result
    ∧ (result = true ↔
         ∃ obj,
           obj ∈ eventObjects
                   (UpdateEvent (GatewayClassObject (sampleClass "example.com/other"))
                      (GatewayClassObject
                         (sampleClass "konghq.com/kic-gateway-controller")))
           ∧ inClass "konghq.com/kic-gateway-controller" obj).
Proof.
  destruct (isGatewayClassEventInClass_spec "konghq.com/kic-gateway-controller"
              (UpdateEvent (GatewayClassObject (sampleClass "example.com/other"))
                 (GatewayClassObject (sampleClass "konghq.com/kic-gateway-controller"))))
    as (result & Hresult & Hiff & _).
  - intros obj Hin. simpl in Hin.
    apply elem_of_cons in Hin as [->|Hin]; [discriminate|].
    apply list_elem_of_singleton in Hin. subst obj. discriminate.
  - exists result. split; [exact Hresult | exact Hiff].
Defined.

(** C8, counterexample: a create event whose object is a nil
    [*GatewayClass] pointer carries no GatewayClass of this controller,
    yet the call does not return false: it panics. *)
Lemma isGatewayClassEventInClass_nil_class_panics :
  (¬ ∃ obj, obj ∈ eventObjects (CreateEvent NilGatewayClassObject)
      ∧ inClass "konghq.com/kic-gateway-controller" obj)
  ∧ (∀ obj gwc, obj ∈ eventObjects (CreateEvent NilGatewayClassObject) →
       obj ≠ GatewayClassObject gwc)
  ∧ (isGatewayClassEventInClass "konghq.com/kic-gateway-controller"
       (CreateEvent NilGatewayClassObject)).2 = Panicked.
Proof.
  split; [|split; [|reflexivity]].
  - intros (obj & Hin & gwc & -> & _). simpl in Hin.
    by apply list_elem_of_singleton in Hin.
  - intros obj gwc Hin. simpl in Hin.
    apply list_elem_of_singleton in Hin. by subst obj.
Qed.

(** ** Listener status computation: shape of the second pass *)

Section ReconcilerProofs.
Variable supported : list RouteGroupKind.t.
Variable now : nat → Time.

Lemma claimsAfter_app c listeners1 listeners2 :
  claimsAfter c (listeners1 ++ listeners2) =
  claimsAfter (claimsAfter c listeners1) listeners2.
Proof. apply fold_left_app. Qed.

Lemma evalListener_claims generation protocols existing st listener :
  claims (evalListener supported now generation protocols existing st listener) =
  (conflictCheck (claims st) listener).2.
Proof.
  unfold evalListener. destruct (conflictCheck (claims st) listener) as [conflict c].
  by destruct (listenerConditions now generation protocols conflict (ticks st) listener).
Qed.

Lemma evalListener_statuses generation protocols existing st listener :
  ∃ status,
    statuses (evalListener supported now generation protocols existing st listener) =
      statuses st ++ [status]
    ∧ ListenerStatus.Name status = Listener.Name listener
    ∧ ListenerStatus.Conditions status =
        (listenerConditions now generation protocols
           (conflictCheck (claims st) listener).1 (ticks st) listener).1.
Proof.
  unfold evalListener. destruct (conflictCheck (claims st) listener) as [conflict c].
  destruct (listenerConditions now generation protocols conflict (ticks st) listener)
    as [conditions tick] eqn:Hconds.
  eexists. split; [reflexivity|]. simpl. by rewrite Hconds.
Qed.

Lemma evalLoop_claims generation protocols existing listeners st :
  claims (fold_left (evalListener supported now generation protocols existing) listeners st) =
  claimsAfter (claims st) listeners.
Proof.
  revert st. induction listeners as [|listener listeners IH]; intros st; [done|].
  simpl. rewrite IH. by rewrite evalListener_claims.
Qed.

(** The loop only appends: it extends [statuses] by one entry per listener. *)
Lemma evalLoop_statuses generation protocols existing listeners st :
  ∃ appended,
    statuses (fold_left (evalListener supported now generation protocols existing)
                listeners st) = statuses st ++ appended
    ∧ length appended = length listeners.
Proof.
  revert st. induction listeners as [|listener listeners IH]; intros st; simpl.
  - exists []. by rewrite app_nil_r.
  - destruct (IH (evalListener supported now generation protocols existing st listener))
      as (appended & -> & Hlen).
    destruct (evalListener_statuses generation protocols existing st listener)
      as (status & -> & _).
    exists (status :: appended). rewrite <- app_assoc. simpl. by rewrite Hlen.
Qed.

(** The status at index [i] is computed from the claims left by the first
    [i] listeners. *)
Lemma evalLoop_lookup generation protocols existing listeners st i listener :
  listeners !! i = Some listener →
  ∃ status tick,
    statuses (fold_left (evalListener supported now generation protocols existing)
                listeners st) !! (length (statuses st) + i)%nat = Some status
    ∧ ListenerStatus.Name status = Listener.Name listener
    ∧ ListenerStatus.Conditions status =
        (listenerConditions now generation protocols
           (conflictCheck (claimsAfter (claims st) (take i listeners)) listener).1
           tick listener).1.
Proof.
  intros Hi.
  set (body := evalListener supported now generation protocols existing).
  assert (Hsplit : fold_left body listeners st =
            fold_left body (drop (S i) listeners)
              (body (fold_left body (take i listeners) st) listener)).
  { transitivity (fold_left body (take i listeners ++ listener :: drop (S i) listeners) st).
    - by rewrite take_drop_middle.
    - by rewrite fold_left_app. }
  rewrite Hsplit. unfold body in *. clear Hsplit body.
  set (st1 := fold_left _ (take i listeners) st).
  destruct (evalLoop_statuses generation protocols existing (take i listeners) st)
    as (before & Hbefore & Hlen). fold st1 in Hbefore.
  destruct (evalListener_statuses generation protocols existing st1 listener)
    as (status & Hstatus & Hname & Hconds).
  destruct (evalLoop_statuses generation protocols existing (drop (S i) listeners)
              (evalListener supported now generation protocols existing st1 listener))
    as (after & -> & _).
  exists status, (ticks st1). split; [|split; [done|]].
  - rewrite Hstatus, Hbefore.
    apply lookup_lt_Some in Hi. rewrite length_take in Hlen.
    apply lookup_app_l_Some. rewrite lookup_app_r; rewrite length_app; [|lia].
    replace (length (statuses st) + i - (length (statuses st) + length before))%nat
      with 0%nat by lia.
    done.
  - rewrite Hconds. unfold st1. by rewrite evalLoop_claims.
Qed.

(** The outcome of [getListenerStatus] for the spec listener at index [i]. *)
Lemma getListenerStatus_lookup gateway kongListens i listener :
  GatewaySpec.Listeners (Gateway.Spec gateway) !! i = Some listener →
  ∃ tick,
    statusAt supported now gateway kongListens i =
    Some (listenerConditions now (Gateway.Generation gateway)
            (indexKongListens kongListens)
            (conflictCheck
               (claimsAfter
                  (preseed (indexListenerStatuses
                              (GatewayStatus.Listeners (Gateway.Status gateway)))
                     (GatewaySpec.Listeners (Gateway.Spec gateway)))
                  (take i (GatewaySpec.Listeners (Gateway.Spec gateway))))
               listener).1
            tick listener).1.
Proof.
  intros Hi.
  destruct (evalLoop_lookup (Gateway.Generation gateway) (indexKongListens kongListens)
              (indexListenerStatuses (GatewayStatus.Listeners (Gateway.Status gateway)))
              (GatewaySpec.Listeners (Gateway.Spec gateway))
              (mkEvalState
                 (preseed (indexListenerStatuses
                             (GatewayStatus.Listeners (Gateway.Status gateway)))
                    (GatewaySpec.Listeners (Gateway.Spec gateway))) 0 [])
              i listener Hi)
    as (status & tick & Hlookup & _ & Hconds).
  cbn [statuses claims length Nat.add] in Hlookup, Hconds.
  unfold statusAt, getListenerStatus. cbv zeta. rewrite Hlookup.
  exists tick. cbn [fmap option_fmap option_map]. by rewrite Hconds.
Qed.

Lemma getListenerStatus_length gateway kongListens :
  length (getListenerStatus supported now gateway kongListens) =
  length (GatewaySpec.Listeners (Gateway.Spec gateway)).
Proof.
  unfold getListenerStatus.
  edestruct evalLoop_statuses as (appended & -> & Hlen). simpl. exact Hlen.
Qed.

End ReconcilerProofs.

(** ** Conditions of one listener *)

Ltac conditions_cases protocols listener conflict :=
  unfold listenerConditions, appendCondition;
  destruct conflict as [raised|];
  destruct (Nat.eqb_spec (size (inner protocols (Listener.Protocol listener))) 0)
    as [Hsize|Hsize];
  destruct (inner protocols (Listener.Protocol listener) !! Listener.Port listener)
    as [present|] eqn:Hport;
  cbn.

Section ConditionProofs.
Variable now : nat → Time.
Variable generation : Z.
Variable protocols : gmap string (gmap Z bool).
Variable tick : nat.
Variable listener : Listener.t.

(** A Conflicted=True condition appears exactly when the conflict check
    raised one, with the reason it raised. *)
Lemma listenerConditions_conflict conflict reason :
  hasCondition ListenerConditionConflicted ConditionTrue reason
    (listenerConditions now generation protocols conflict tick listener).1 = true
  ↔ conflict = Some reason.
Proof.
  conditions_cases protocols listener conflict;
    rewrite ?orb_false_r, ?String.eqb_eq; split; congruence.
Qed.

Lemma listenerConditions_unconflicted conflict :
  hasConditionStatus ListenerConditionConflicted ConditionTrue
    (listenerConditions now generation protocols conflict tick listener).1 = false
  ↔ conflict = None.
Proof. conditions_cases protocols listener conflict; split; congruence. Qed.

Lemma listenerConditions_unsupported conflict :
  hasCondition ListenerConditionDetached ConditionTrue ListenerReasonUnsupportedProtocol
    (listenerConditions now generation protocols conflict tick listener).1 = true
  ↔ size (inner protocols (Listener.Protocol listener)) = 0%nat.
Proof. conditions_cases protocols listener conflict; split; congruence. Qed.

Lemma listenerConditions_unavailable conflict :
  hasCondition ListenerConditionDetached ConditionTrue ListenerReasonPortUnavailable
    (listenerConditions now generation protocols conflict tick listener).1 = true
  ↔ inner protocols (Listener.Protocol listener) !! Listener.Port listener = None.
Proof. conditions_cases protocols listener conflict; split; congruence. Qed.

(** The number of Detached conditions: one per failed data-plane test. *)
Lemma listenerConditions_detached_count conflict :
  countType ListenerConditionDetached
    (listenerConditions now generation protocols conflict tick listener).1 =
  ((if Nat.eqb (size (inner protocols (Listener.Protocol listener))) 0 then 1 else 0)
   + (match inner protocols (Listener.Protocol listener) !! Listener.Port listener with
      | Some _ => 0
      | None => 1
      end))%nat.
Proof. conditions_cases protocols listener conflict; reflexivity. Qed.

Lemma listenerConditions_conflicted_count conflict :
  (countType ListenerConditionConflicted
     (listenerConditions now generation protocols conflict tick listener).1 ≤ 1)%nat.
Proof. conditions_cases protocols listener conflict; apply Nat.leb_le; reflexivity. Qed.

Lemma listenerConditions_ready_count conflict :
  countType ListenerConditionReady
    (listenerConditions now generation protocols conflict tick listener).1 = 1%nat.
Proof. conditions_cases protocols listener conflict; reflexivity. Qed.

(** The listener is reported Ready=True exactly when it raised neither a
    conflict nor a detachment. *)
Lemma listenerConditions_ready conflict :
  hasCondition ListenerConditionReady ConditionTrue ListenerReasonReady
    (listenerConditions now generation protocols conflict tick listener).1 = true
  ↔ conflict = None
    ∧ is_Some (inner protocols (Listener.Protocol listener) !! Listener.Port listener).
Proof.
  conditions_cases protocols listener conflict; split; try congruence;
    try (by intros [? [? ?]]); try (by intros _; split; [|eexists]).
  all: exfalso; apply map_size_empty_iff in Hsize; rewrite Hsize in Hport;
    by rewrite lookup_empty in Hport.
Qed.

End ConditionProofs.

(** ** The data-plane index *)

Lemma inner_empty {A B V} `{Countable A, Countable B} (k : A) :
  inner (∅ : gmap A (gmap B V)) k = ∅.
Proof. unfold inner. by rewrite lookup_empty. Qed.

Lemma inner_insert_eq {A B V} `{Countable A, Countable B}
    (m : gmap A (gmap B V)) (k : A) (v : gmap B V) :
  inner (<[k := v]> m) k = v.
Proof. unfold inner. by rewrite lookup_insert_eq. Qed.

Lemma inner_insert_ne {A B V} `{Countable A, Countable B}
    (m : gmap A (gmap B V)) (k k' : A) (v : gmap B V) :
  k ≠ k' → inner (<[k := v]> m) k' = inner m k'.
Proof. intros Hne. unfold inner. by rewrite lookup_insert_ne. Qed.

(** One iteration of the loop over the Kong listens adds the port of the
    listen to the port set of its protocol and leaves the others alone. *)
Lemma indexKongListens_step (protocols : gmap string (gmap Z bool)) listen protocol :
  inner
    (<[Listener.Protocol listen :=
         <[Listener.Port listen := true]>
           (inner
              match protocols !! Listener.Protocol listen with
              | Some _ => protocols
              | None => <[Listener.Protocol listen := ∅]> protocols
              end (Listener.Protocol listen))]>
       match protocols !! Listener.Protocol listen with
       | Some _ => protocols
       | None => <[Listener.Protocol listen := ∅]> protocols
       end) protocol =
  if decide (Listener.Protocol listen = protocol)
  then <[Listener.Port listen := true]> (inner protocols protocol)
  else inner protocols protocol.
Proof.
  case_decide as Hprotocol.
  - subst protocol. rewrite inner_insert_eq.
    destruct (protocols !! Listener.Protocol listen) as [ports|] eqn:Hlookup; [done|].
    rewrite inner_insert_eq. unfold inner. by rewrite Hlookup.
  - rewrite inner_insert_ne by done.
    destruct (protocols !! Listener.Protocol listen); [done|].
    by rewrite inner_insert_ne.
Qed.

Lemma indexKongListens_loop_port kongListens (protocols : gmap string (gmap Z bool))
    protocol port :
  inner
    (fold_left
       (λ protocols listen,
         let protocols :=
           match protocols !! Listener.Protocol listen with
           | Some _ => protocols
           | None => <[Listener.Protocol listen := ∅]> protocols
           end in
         <[Listener.Protocol listen :=
             <[Listener.Port listen := true]> (inner protocols (Listener.Protocol listen))]>
           protocols)
       kongListens protocols) protocol !! port =
  if listensOn kongListens protocol port then Some true
  else inner protocols protocol !! port.
Proof.
  revert protocols. induction kongListens as [|listen kongListens IH]; intros protocols.
  - done.
  - cbn [fold_left listensOn existsb]. rewrite IH. fold (listensOn kongListens protocol port).
    destruct (listensOn kongListens protocol port); [by rewrite orb_true_r|].
    rewrite orb_false_r. cbv zeta. rewrite indexKongListens_step.
    destruct (String.eqb_spec (Listener.Protocol listen) protocol) as [Heq|Hne].
    + rewrite decide_True by done. simpl.
      destruct (Z.eqb_spec (Listener.Port listen) port) as [->|Hport].
      * by rewrite lookup_insert_eq.
      * by rewrite lookup_insert_ne.
    + by rewrite decide_False.
Qed.

Lemma indexKongListens_loop_protocol kongListens (protocols : gmap string (gmap Z bool))
    protocol :
  inner
    (fold_left
       (λ protocols listen,
         let protocols :=
           match protocols !! Listener.Protocol listen with
           | Some _ => protocols
           | None => <[Listener.Protocol listen := ∅]> protocols
           end in
         <[Listener.Protocol listen :=
             <[Listener.Port listen := true]> (inner protocols (Listener.Protocol listen))]>
           protocols)
       kongListens protocols) protocol = ∅
  ↔ inner protocols protocol = ∅ ∧ listensProtocol kongListens protocol = false.
Proof.
  revert protocols. induction kongListens as [|listen kongListens IH]; intros protocols.
  - simpl. split; [done | by intros [? _]].
  - cbn [fold_left listensProtocol existsb]. rewrite IH.
    fold (listensProtocol kongListens protocol).
    cbv zeta. rewrite indexKongListens_step.
    destruct (String.eqb_spec (Listener.Protocol listen) protocol) as [Heq|Hne].
    + rewrite decide_True by done. simpl. split.
      * intros [Hempty _]. by apply insert_non_empty in Hempty.
      * intros [_ ?]. done.
    + rewrite decide_False by done. simpl. done.
Qed.

(** A listener's port is in the index exactly when the data plane listens
    on it with the listener's protocol. *)
Lemma indexKongListens_port kongListens protocol port :
  inner (indexKongListens kongListens) protocol !! port =
  if listensOn kongListens protocol port then Some true else None.
Proof.
  unfold indexKongListens. rewrite indexKongListens_loop_port.
  by rewrite inner_empty, lookup_empty.
Qed.

(** The port set of a protocol is empty exactly when the data plane has
    no listen of that protocol. *)
Lemma indexKongListens_size kongListens protocol :
  size (inner (indexKongListens kongListens) protocol) = 0%nat
  ↔ listensProtocol kongListens protocol = false.
Proof.
  rewrite map_size_empty_iff. unfold indexKongListens.
  rewrite indexKongListens_loop_protocol. rewrite inner_empty.
  split; [by intros [_ ?] | done].
Qed.

Lemma listensOn_listensProtocol kongListens protocol port :
  listensOn kongListens protocol port = true →
  listensProtocol kongListens protocol = true.
Proof.
  unfold listensOn, listensProtocol. rewrite !existsb_exists.
  intros (listen & Hin & [Hprotocol _]%andb_true_iff). eauto.
Qed.

(** ** Detachment *)

Section DetachmentProofs.
Variable supported : list RouteGroupKind.t.
Variable now : nat → Time.
Variable gateway : Gateway.t.
Variable kongListens : list Listener.t.

(** X9: the Detached conditions of each listener, by what the data plane
    listens on: no listen of the protocol gives both an UnsupportedProtocol
    and a PortUnavailable condition; listens of the protocol but none on
    the port give PortUnavailable alone; a listen on the port gives no
    Detached condition. *)
Lemma getListenerStatus_detachment i listener :
  GatewaySpec.Listeners (Gateway.Spec gateway) !! i = Some listener →
  ∃ conds,
    statusAt supported now gateway kongListens i = Some conds
    ∧ hasCondition ListenerConditionDetached ConditionTrue
        ListenerReasonUnsupportedProtocol conds =
      negb (listensProtocol kongListens (Listener.Protocol listener))
    ∧ hasCondition ListenerConditionDetached ConditionTrue
        ListenerReasonPortUnavailable conds =
      negb (listensOn kongListens (Listener.Protocol listener) (Listener.Port listener))
    ∧ countType ListenerConditionDetached conds =
      ((if listensProtocol kongListens (Listener.Protocol listener) then 0 else 1)
       + (if listensOn kongListens (Listener.Protocol listener) (Listener.Port listener)
          then 0 else 1))%nat.
Proof.
  intros Hi.
  destruct (getListenerStatus_lookup supported now gateway kongListens i listener Hi)
    as (tick & Hstatus).
  eexists. split; [exact Hstatus|].
  pose proof (indexKongListens_size kongListens (Listener.Protocol listener)) as Hsize.
  pose proof (indexKongListens_port kongListens (Listener.Protocol listener)
                (Listener.Port listener)) as Hport.
  split; [|split].
  - destruct (listensProtocol kongListens (Listener.Protocol listener)); simpl.
    + apply not_true_is_false. rewrite listenerConditions_unsupported.
      intros Hzero. apply Hsize in Hzero. discriminate.
    + apply listenerConditions_unsupported. by apply Hsize.
  - destruct (listensOn kongListens (Listener.Protocol listener) (Listener.Port listener));
      simpl.
    + apply not_true_is_false. rewrite listenerConditions_unavailable. by rewrite Hport.
    + by apply listenerConditions_unavailable.
  - rewrite listenerConditions_detached_count, Hport.
    destruct (Nat.eqb_spec
                (size (inner (indexKongListens kongListens) (Listener.Protocol listener))) 0)
      as [Hzero|Hpos].
    + apply Hsize in Hzero. rewrite Hzero.
      by destruct (listensOn kongListens (Listener.Protocol listener) (Listener.Port listener)).
    + destruct (listensProtocol kongListens (Listener.Protocol listener)).
      * by destruct (listensOn kongListens (Listener.Protocol listener)
                       (Listener.Port listener)).
      * exfalso. apply Hpos. by apply Hsize.
Qed.

(** X10: in the status of every listener a condition of type Conflicted
    occurs at most once and one of type Ready exactly once. *)
Lemma getListenerStatus_single_conflicted_ready i listener :
  GatewaySpec.Listeners (Gateway.Spec gateway) !! i = Some listener →
  ∃ conds,
    statusAt supported now gateway kongListens i = Some conds
    ∧ (countType ListenerConditionConflicted conds ≤ 1)%nat
    ∧ countType ListenerConditionReady conds = 1%nat.
Proof.
  intros Hi.
  destruct (getListenerStatus_lookup supported now gateway kongListens i listener Hi)
    as (tick & Hstatus).
  eexists. split; [exact Hstatus|]. split.
  - apply listenerConditions_conflicted_count.
  - apply listenerConditions_ready_count.
Qed.

End DetachmentProofs.

(** C2: the claim that a listener status never carries two conditions of
    one type fails in the scenario of the specification itself: the data
    plane has no HTTPS listen, and the status computed for the HTTPS
    listener web-tls (index 1) carries two Detached conditions. *)
Theorem getListenerStatus_two_Detached :
  ∃ conds,
    statusAt sampleKinds sampleClock webGateway webListens 1 = Some conds
    ∧ countType ListenerConditionDetached conds = 2%nat.
Proof. eexists. split; reflexivity. Qed.

(** C3: the claim that the UnsupportedProtocol and PortUnavailable
    outcomes exclude each other fails in the same scenario: with no HTTPS
    listen at all, the listener web-tls gets Detached=True with reason
    UnsupportedProtocol and also Detached=True with reason PortUnavailable. *)
Theorem getListenerStatus_Detached_both_reasons :
  listensProtocol webListens HTTPSProtocolType = false
  ∧ ∃ conds,
      statusAt sampleKinds sampleClock webGateway webListens 1 = Some conds
      ∧ hasCondition ListenerConditionDetached ConditionTrue
          ListenerReasonUnsupportedProtocol conds = true
      ∧ hasCondition ListenerConditionDetached ConditionTrue
          ListenerReasonPortUnavailable conds = true.
Proof. split; [reflexivity|]. eexists. repeat split; reflexivity. Qed.

(** ** The conflict check *)

Lemma inner_ensureHostnames ph port port' :
  inner (ensureHostnames ph port) port' = inner ph port'.
Proof.
  unfold ensureHostnames. destruct (ph !! port) eqn:Hlookup; [done|].
  destruct (decide (port = port')) as [<-|Hne].
  - rewrite inner_insert_eq. unfold inner. by rewrite Hlookup.
  - by rewrite inner_insert_ne.
Qed.

Lemma inner_setHostname ph port hostname name port' :
  inner (setHostname ph port hostname name) port' =
  if decide (port = port') then <[hostname := name]> (inner ph port) else inner ph port'.
Proof.
  unfold setHostname. case_decide as Hport.
  - subst port'. by rewrite inner_insert_eq.
  - by rewrite inner_insert_ne.
Qed.

(** A listener on an unclaimed port claims it and raises no conflict; its
    hostname is not recorded. *)
Lemma conflictCheck_unclaimed c listener :
  portsToProtocol c !! Listener.Port listener = None →
  conflictCheck c listener =
  (None, mkClaims (<[Listener.Port listener := Listener.Protocol listener]> (portsToProtocol c))
           (portsToHostnames c)).
Proof. intros Hfree. unfold conflictCheck. by rewrite Hfree. Qed.

(** A port claimed for TCP or UDP is shared with nobody. *)
Lemma conflictCheck_exclusive c listener claimed :
  portsToProtocol c !! Listener.Port listener = Some claimed →
  claimed = TCPProtocolType ∨ claimed = UDPProtocolType →
  conflictCheck c listener = (Some ListenerReasonProtocolConflict, c).
Proof.
  intros Hclaimed Hexclusive. unfold conflictCheck. rewrite Hclaimed.
  by destruct Hexclusive as [-> | ->].
Qed.

(** A port claimed for a protocol the listener's protocol cannot share
    with raises a protocol conflict. *)
Lemma conflictCheck_incompatible c listener claimed :
  portsToProtocol c !! Listener.Port listener = Some claimed →
  compatible claimed (Listener.Protocol listener) = false →
  conflictCheck c listener = (Some ListenerReasonProtocolConflict, c).
Proof.
  intros Hclaimed Hincompatible. unfold conflictCheck. rewrite Hclaimed.
  unfold compatible in Hincompatible. rewrite Hincompatible.
  by destruct ((claimed =? TCPProtocolType) || (claimed =? UDPProtocolType)).
Qed.

(** On a port claimed for a protocol that can be shared, the outcome is
    decided by the owner of the listener's hostname. *)
Lemma conflictCheck_shared c listener claimed :
  portsToProtocol c !! Listener.Port listener = Some claimed →
  claimed ≠ TCPProtocolType → claimed ≠ UDPProtocolType →
  compatible claimed (Listener.Protocol listener) = true →
  (conflictCheck c listener).1 =
  match inner (portsToHostnames c) (Listener.Port listener) !! hostnameOf listener with
  | None => None
  | Some owner =>
      if owner =? Listener.Name listener then None else Some ListenerReasonHostnameConflict
  end.
Proof.
  intros Hclaimed Htcp Hudp Hcompatible. unfold conflictCheck. rewrite Hclaimed.
  apply String.eqb_neq in Htcp, Hudp. rewrite Htcp, Hudp. simpl.
  unfold compatible in Hcompatible. rewrite Hcompatible.
  rewrite inner_ensureHostnames.
  destruct (inner (portsToHostnames c) (Listener.Port listener) !! hostnameOf listener)
    as [owner|]; [|done].
  by destruct (owner =? Listener.Name listener).
Qed.

(** A port claim is never overwritten by the second pass. *)
Lemma conflictCheck_protocol_stable c listener port claimed :
  portsToProtocol c !! port = Some claimed →
  portsToProtocol (conflictCheck c listener).2 !! port = Some claimed.
Proof.
  intros Hclaimed. unfold conflictCheck.
  destruct (portsToProtocol c !! Listener.Port listener) as [claimed'|] eqn:Hlistener.
  - repeat (case_match; simpl; try done).
  - simpl. rewrite lookup_insert_ne; [done|]. congruence.
Qed.

(** A hostname claim is never overwritten by the second pass. *)
Lemma conflictCheck_hostname_stable c listener port hostname owner :
  inner (portsToHostnames c) port !! hostname = Some owner →
  inner (portsToHostnames (conflictCheck c listener).2) port !! hostname = Some owner.
Proof.
  intros Howner. unfold conflictCheck.
  destruct (portsToProtocol c !! Listener.Port listener) as [claimed|]; [|done].
  destruct ((claimed =? TCPProtocolType) || (claimed =? UDPProtocolType)); [done|].
  destruct ((claimed =? Listener.Protocol listener)
            || (Listener.Protocol listener =? HTTPSProtocolType) && (claimed =? TLSProtocolType)
            || (Listener.Protocol listener =? TLSProtocolType) && (claimed =? HTTPSProtocolType));
    [|done].
  destruct (inner (ensureHostnames (portsToHostnames c) (Listener.Port listener))
              (Listener.Port listener) !! hostnameOf listener) as [owner'|] eqn:Hlookup.
  - destruct (owner' =? Listener.Name listener); simpl; by rewrite inner_ensureHostnames.
  - simpl. rewrite inner_setHostname, !inner_ensureHostnames.
    rewrite inner_ensureHostnames in Hlookup.
    case_decide as Hport; [|done]. subst port.
    rewrite lookup_insert_ne; [done|]. congruence.
Qed.

(** A listener leaves the claims of the other ports alone. *)
Lemma conflictCheck_frame c listener port :
  Listener.Port listener ≠ port →
  portView (conflictCheck c listener).2 port = portView c port.
Proof.
  intros Hport. unfold portView, conflictCheck.
  destruct (portsToProtocol c !! Listener.Port listener) as [claimed|].
  - repeat (case_match; simpl; try done);
      rewrite ?inner_setHostname, ?inner_ensureHostnames, ?decide_False by done; done.
  - simpl. by rewrite lookup_insert_ne.
Qed.

Lemma claimsAfter_protocol_stable listeners c port claimed :
  portsToProtocol c !! port = Some claimed →
  portsToProtocol (claimsAfter c listeners) !! port = Some claimed.
Proof.
  revert c. induction listeners as [|listener listeners IH]; intros c Hclaimed; [done|].
  simpl. apply IH. by apply conflictCheck_protocol_stable.
Qed.

Lemma claimsAfter_hostname_stable listeners c port hostname owner :
  inner (portsToHostnames c) port !! hostname = Some owner →
  inner (portsToHostnames (claimsAfter c listeners)) port !! hostname = Some owner.
Proof.
  revert c. induction listeners as [|listener listeners IH]; intros c Howner; [done|].
  simpl. apply IH. by apply conflictCheck_hostname_stable.
Qed.

Lemma claimsAfter_snoc c listeners listener :
  claimsAfter c (listeners ++ [listener]) =
  (conflictCheck (claimsAfter c listeners) listener).2.
Proof. by rewrite claimsAfter_app. Qed.

(** Claims made by a prefix of the spec listeners survive every longer
    prefix. *)
Lemma take_le_app {A} (l : list A) (k j : nat) :
  (k ≤ j)%nat → ∃ rest, take j l = take k l ++ rest.
Proof.
  intros Hle. exists (drop k (take j l)).
  rewrite <- (take_drop k (take j l)) at 1. f_equal.
  rewrite take_take. f_equal. lia.
Qed.

(** ** The first pass *)

Lemma preseedCondition_match listener c condition :
  (Condition.Type_ condition =? ListenerConditionConflicted)
  && (Condition.Status condition =? ConditionFalse) = true →
  preseedCondition listener c condition = preseedOnce c listener.
Proof. intros Hmatch. unfold preseedOnce, preseedCondition. by rewrite Hmatch. Qed.

Lemma preseedCondition_skip listener c condition :
  (Condition.Type_ condition =? ListenerConditionConflicted)
  && (Condition.Status condition =? ConditionFalse) = false →
  preseedCondition listener c condition = c.
Proof. intros Hskip. unfold preseedCondition. by rewrite Hskip. Qed.

Lemma preseedOnce_unfold c listener :
  preseedOnce c listener =
  mkClaims
    match portsToProtocol c !! Listener.Port listener with
    | Some _ => portsToProtocol c
    | None => <[Listener.Port listener := Listener.Protocol listener]> (portsToProtocol c)
    end
    (if hostnameProtocol (Listener.Protocol listener)
     then setHostname (ensureHostnames (portsToHostnames c) (Listener.Port listener))
            (Listener.Port listener) (hostnameOf listener) (Listener.Name listener)
     else portsToHostnames c).
Proof.
  unfold preseedOnce, preseedCondition, hostnameProtocol.
  change ((ListenerConditionConflicted =? ListenerConditionConflicted)
          && (ConditionFalse =? ConditionFalse)) with true. cbv iota.
  by destruct ((Listener.Protocol listener =? HTTPProtocolType)
               || (Listener.Protocol listener =? HTTPSProtocolType)
               || (Listener.Protocol listener =? TLSProtocolType)).
Qed.

Lemma preseedOnce_protocol c listener :
  portsToProtocol (preseedOnce c listener) !! Listener.Port listener =
  Some (default (Listener.Protocol listener)
          (portsToProtocol c !! Listener.Port listener)).
Proof.
  rewrite preseedOnce_unfold. simpl.
  destruct (portsToProtocol c !! Listener.Port listener) as [claimed|] eqn:Hclaimed;
    simpl; by rewrite ?lookup_insert_eq.
Qed.

Lemma preseedOnce_hostnames c listener :
  inner (portsToHostnames (preseedOnce c listener)) (Listener.Port listener) =
  if hostnameProtocol (Listener.Protocol listener)
  then <[hostnameOf listener := Listener.Name listener]>
         (inner (portsToHostnames c) (Listener.Port listener))
  else inner (portsToHostnames c) (Listener.Port listener).
Proof.
  rewrite preseedOnce_unfold. simpl.
  destruct (hostnameProtocol (Listener.Protocol listener)); [|done].
  by rewrite inner_setHostname, decide_True, inner_ensureHostnames.
Qed.

Lemma preseedOnce_frame c listener port :
  Listener.Port listener ≠ port →
  portView (preseedOnce c listener) port = portView c port.
Proof.
  intros Hport. rewrite preseedOnce_unfold. unfold portView. simpl. f_equal.
  - destruct (portsToProtocol c !! Listener.Port listener); [done|].
    by rewrite lookup_insert_ne.
  - destruct (hostnameProtocol (Listener.Protocol listener)); [|done].
    by rewrite inner_setHostname, decide_False, inner_ensureHostnames.
Qed.

Lemma setHostname_again ph port hostname name :
  setHostname (ensureHostnames (setHostname ph port hostname name) port)
    port hostname name =
  setHostname ph port hostname name.
Proof.
  unfold setHostname at 1.
  rewrite inner_ensureHostnames, inner_setHostname, decide_True by done.
  rewrite insert_insert_eq.
  unfold ensureHostnames, setHostname. rewrite lookup_insert_eq.
  by rewrite insert_insert_eq.
Qed.

(** Seeding the same listener again changes nothing. *)
Lemma preseedOnce_idempotent c listener :
  preseedOnce (preseedOnce c listener) listener = preseedOnce c listener.
Proof.
  rewrite (preseedOnce_unfold (preseedOnce c listener)).
  rewrite preseedOnce_protocol.
  rewrite (preseedOnce_unfold c listener). simpl. f_equal.
  destruct (hostnameProtocol (Listener.Protocol listener)) eqn:Hprotocol; [|done].
  apply setHostname_again.
Qed.

Lemma preseedConditions_cases listener conditions c :
  fold_left (preseedCondition listener) conditions c =
  if hasConditionStatus ListenerConditionConflicted ConditionFalse conditions
  then preseedOnce c listener else c.
Proof.
  revert c. induction conditions as [|condition conditions IH]; intros c; [done|].
  cbn [fold_left hasConditionStatus existsb]. rewrite IH.
  fold (hasConditionStatus ListenerConditionConflicted ConditionFalse conditions).
  destruct ((Condition.Type_ condition =? ListenerConditionConflicted)
            && (Condition.Status condition =? ConditionFalse)) eqn:Hmatch.
  - rewrite preseedCondition_match by done. simpl.
    destruct (hasConditionStatus _ _ conditions); [|done].
    apply preseedOnce_idempotent.
  - by rewrite preseedCondition_skip.
Qed.

(** The first pass seeds exactly the listeners whose previous status
    carries a Conflicted=False condition. *)
Lemma preseedListener_cases previous c listener :
  preseedListener (indexListenerStatuses previous) c listener =
  if previouslyUnconflicted previous listener then preseedOnce c listener else c.
Proof.
  unfold preseedListener, previouslyUnconflicted.
  destruct (indexListenerStatuses previous !! Listener.Name listener); [|done].
  apply preseedConditions_cases.
Qed.

Lemma preseed_snoc previous listeners listener :
  preseed (indexListenerStatuses previous) (listeners ++ [listener]) =
  if previouslyUnconflicted previous listener
  then preseedOnce (preseed (indexListenerStatuses previous) listeners) listener
  else preseed (indexListenerStatuses previous) listeners.
Proof.
  unfold preseed. rewrite fold_left_app. simpl. apply preseedListener_cases.
Qed.

(** With no previous status the first pass claims nothing. *)
Lemma preseed_no_previous listeners :
  preseed (indexListenerStatuses []) listeners = mkClaims ∅ ∅.
Proof.
  induction listeners as [|listener listeners IH] using rev_ind; [done|].
  rewrite preseed_snoc, IH. unfold previouslyUnconflicted, indexListenerStatuses.
  cbn [fold_left]. by rewrite lookup_empty.
Qed.

(** ** Prefixes of the spec listeners *)

Lemma preseed_take_S previous listeners k listener :
  listeners !! k = Some listener →
  preseed (indexListenerStatuses previous) (take (S k) listeners) =
  if previouslyUnconflicted previous listener
  then preseedOnce (preseed (indexListenerStatuses previous) (take k listeners)) listener
  else preseed (indexListenerStatuses previous) (take k listeners).
Proof. intros Hk. rewrite (take_S_r _ _ _ Hk). apply preseed_snoc. Qed.

Lemma claimsAfter_take_S c listeners k listener :
  listeners !! k = Some listener →
  claimsAfter c (take (S k) listeners) =
  (conflictCheck (claimsAfter c (take k listeners)) listener).2.
Proof. intros Hk. rewrite (take_S_r _ _ _ Hk). apply claimsAfter_snoc. Qed.

(** The first pass leaves the claims of a port alone while it runs over
    listeners that are on other ports or not previously unconflicted. *)
Lemma preseed_frame_range previous listeners port k j :
  (k ≤ j)%nat →
  (∀ m listener, (k ≤ m < j)%nat → listeners !! m = Some listener →
     Listener.Port listener = port → previouslyUnconflicted previous listener = false) →
  portView (preseed (indexListenerStatuses previous) (take j listeners)) port =
  portView (preseed (indexListenerStatuses previous) (take k listeners)) port.
Proof.
  intros Hle Hrange. induction j as [|j IH]; [by replace k with 0%nat by lia|].
  destruct (decide (k = S j)) as [->|Hne]; [done|].
  rewrite <- IH; [|lia|intros m listener ?; apply Hrange; lia].
  destruct (listeners !! j) as [listener|] eqn:Hj.
  - rewrite (preseed_take_S _ _ _ _ Hj).
    destruct (previouslyUnconflicted previous listener) eqn:Hprevious; [|done].
    apply preseedOnce_frame. intros Hport.
    rewrite (Hrange j listener) in Hprevious; [done|lia|done|done].
  - apply lookup_ge_None in Hj. by rewrite !take_ge by lia.
Qed.

(** The second pass leaves the claims of a port alone while it runs over
    listeners on other ports. *)
Lemma claimsAfter_frame_range c listeners port k j :
  (k ≤ j)%nat →
  (∀ m listener, (k ≤ m < j)%nat → listeners !! m = Some listener →
     Listener.Port listener ≠ port) →
  portView (claimsAfter c (take j listeners)) port =
  portView (claimsAfter c (take k listeners)) port.
Proof.
  intros Hle Hrange. induction j as [|j IH]; [by replace k with 0%nat by lia|].
  destruct (decide (k = S j)) as [->|Hne]; [done|].
  rewrite <- IH; [|lia|intros m listener ?; apply Hrange; lia].
  destruct (listeners !! j) as [listener|] eqn:Hj.
  - rewrite (claimsAfter_take_S _ _ _ _ Hj).
    apply conflictCheck_frame. apply (Hrange j); [lia|done].
  - apply lookup_ge_None in Hj. by rewrite !take_ge by lia.
Qed.

(** Claims present after a prefix are present after every longer prefix. *)
Lemma claimsAfter_take_protocol_stable c listeners port claimed k j :
  (k ≤ j)%nat →
  portsToProtocol (claimsAfter c (take k listeners)) !! port = Some claimed →
  portsToProtocol (claimsAfter c (take j listeners)) !! port = Some claimed.
Proof.
  intros Hle Hclaimed. destruct (take_le_app listeners k j Hle) as [rest ->].
  rewrite claimsAfter_app. by apply claimsAfter_protocol_stable.
Qed.

Lemma hostnameProtocol_shared protocol :
  hostnameProtocol protocol = true →
  protocol ≠ TCPProtocolType ∧ protocol ≠ UDPProtocolType
  ∧ compatible protocol protocol = true.
Proof.
  intros Hprotocol.
  assert (protocol = HTTPProtocolType ∨ protocol = HTTPSProtocolType
          ∨ protocol = TLSProtocolType) as [-> | [-> | ->]].
  { unfold hostnameProtocol in Hprotocol.
    rewrite !orb_true_iff, !String.eqb_eq in Hprotocol. tauto. }
  all: by repeat split.
Qed.

(** ** Precedence of previously unconflicted listeners *)

Lemma portView_initial port : portView (mkClaims ∅ ∅) port = (None, ∅).
Proof. unfold portView. simpl. by rewrite lookup_empty, inner_empty. Qed.

(** When a single listener of a port is previously unconflicted, the first
    pass leaves the port claimed for its protocol and its hostname owned
    by it. *)
Lemma preseed_single_owner previous listeners i A :
  listeners !! i = Some A →
  previouslyUnconflicted previous A = true →
  hostnameProtocol (Listener.Protocol A) = true →
  (∀ k listener, listeners !! k = Some listener → k ≠ i →
     Listener.Port listener = Listener.Port A →
     previouslyUnconflicted previous listener = false) →
  portView (preseed (indexListenerStatuses previous) listeners) (Listener.Port A) =
  (Some (Listener.Protocol A), {[hostnameOf A := Listener.Name A]}).
Proof.
  intros Hi HpreviousA HprotocolA Hothers.
  pose proof (lookup_lt_Some _ _ _ Hi) as Hlt.
  assert (Hall : take (length listeners) listeners = listeners) by by apply take_ge.
  rewrite <- Hall.
  rewrite (preseed_frame_range previous listeners (Listener.Port A) (S i) (length listeners));
    [|lia|intros m listener ? ? ?; apply (Hothers m); [done|lia|done]].
  assert (Hbefore :
    portView (preseed (indexListenerStatuses previous) (take i listeners)) (Listener.Port A) =
    (None, ∅)).
  { rewrite (preseed_frame_range previous listeners (Listener.Port A) 0 i);
      [apply portView_initial|lia|].
    intros m listener ? ? ?. apply (Hothers m); [done|lia|done]. }
  unfold portView in Hbefore. injection Hbefore as Hpp Hph.
  rewrite (preseed_take_S _ _ _ _ Hi), HpreviousA. unfold portView.
  rewrite preseedOnce_protocol, preseedOnce_hostnames, HprotocolA, Hpp, Hph.
  by rewrite insert_empty.
Qed.

(** When two listeners of a port are previously unconflicted and share a
    hostname, the first pass keeps the port claim of the earlier one and
    the hostname claim of the later one. *)
Lemma preseed_two_owners previous listeners i j A B :
  listeners !! i = Some A → listeners !! j = Some B → (i < j)%nat →
  Listener.Port A = Listener.Port B → hostnameOf A = hostnameOf B →
  previouslyUnconflicted previous A = true →
  previouslyUnconflicted previous B = true →
  hostnameProtocol (Listener.Protocol B) = true →
  (∀ k listener, listeners !! k = Some listener → k ≠ i → k ≠ j →
     Listener.Port listener = Listener.Port A →
     previouslyUnconflicted previous listener = false) →
  portsToProtocol (preseed (indexListenerStatuses previous) listeners) !! Listener.Port A =
    Some (Listener.Protocol A)
  ∧ inner (portsToHostnames (preseed (indexListenerStatuses previous) listeners))
      (Listener.Port A) !! hostnameOf A = Some (Listener.Name B).
Proof.
  intros Hi Hj Hlt Hport Hhostname HpreviousA HpreviousB HprotocolB Hothers.
  pose proof (lookup_lt_Some _ _ _ Hj) as Hlen.
  assert (Hall : take (length listeners) listeners = listeners) by by apply take_ge.
  assert (Hbefore :
    portView (preseed (indexListenerStatuses previous) (take i listeners)) (Listener.Port A) =
    (None, ∅)).
  { rewrite (preseed_frame_range previous listeners (Listener.Port A) 0 i);
      [apply portView_initial|lia|].
    intros m listener ? ? ?. apply (Hothers m); [done|lia|lia|done]. }
  unfold portView in Hbefore. injection Hbefore as Hpp0 Hph0.
  assert (Hbetween :
    portView (preseed (indexListenerStatuses previous) (take j listeners)) (Listener.Port A) =
    portView (preseed (indexListenerStatuses previous) (take (S i) listeners))
      (Listener.Port A)).
  { apply preseed_frame_range; [lia|].
    intros m listener ? ? ?. apply (Hothers m); [done|lia|lia|done]. }
  unfold portView in Hbetween. injection Hbetween as Hpp1 Hph1.
  assert (Hafter :
    portView (preseed (indexListenerStatuses previous) listeners) (Listener.Port A) =
    portView (preseed (indexListenerStatuses previous) (take (S j) listeners))
      (Listener.Port A)).
  { rewrite <- Hall at 1. apply preseed_frame_range; [lia|].
    intros m listener ? ? ?. apply (Hothers m); [done|lia|lia|done]. }
  unfold portView in Hafter. injection Hafter as Hpp2 Hph2.
  rewrite Hpp2, Hph2. rewrite (preseed_take_S _ _ _ _ Hj), HpreviousB.
  rewrite Hport, Hhostname.
  rewrite preseedOnce_protocol, preseedOnce_hostnames, HprotocolB, lookup_insert_eq.
  rewrite <- Hport, Hpp1.
  rewrite (preseed_take_S _ _ _ _ Hi), HpreviousA, preseedOnce_protocol, Hpp0.
  done.
Qed.

Section PrecedenceProofs.
Variable supported : list RouteGroupKind.t.
Variable now : nat → Time.
Variable gateway : Gateway.t.
Variable kongListens : list Listener.t.

Local Abbreviation listeners := (GatewaySpec.Listeners (Gateway.Spec gateway)).
Local Abbreviation previous := (GatewayStatus.Listeners (Gateway.Status gateway)).

(** The outcome for a listener whose port is claimed for a protocol it can
    share and whose hostname is owned by [owner]. *)
Lemma getListenerStatus_owned k listener claimed owner :
  listeners !! k = Some listener →
  portsToProtocol (preseed (indexListenerStatuses previous) listeners)
    !! Listener.Port listener = Some claimed →
  inner (portsToHostnames (preseed (indexListenerStatuses previous) listeners))
    (Listener.Port listener) !! hostnameOf listener = Some owner →
  claimed ≠ TCPProtocolType → claimed ≠ UDPProtocolType →
  ∃ conds,
    statusAt supported now gateway kongListens k = Some conds
    ∧ (compatible claimed (Listener.Protocol listener) = true →
       owner = Listener.Name listener →
       hasConditionStatus ListenerConditionConflicted ConditionTrue conds = false)
    ∧ (compatible claimed (Listener.Protocol listener) = true →
       owner ≠ Listener.Name listener →
       hasCondition ListenerConditionConflicted ConditionTrue
         ListenerReasonHostnameConflict conds = true)
    ∧ (compatible claimed (Listener.Protocol listener) = false →
       hasCondition ListenerConditionConflicted ConditionTrue
         ListenerReasonProtocolConflict conds = true).
Proof.
  intros Hk Hclaimed Howner Htcp Hudp.
  destruct (getListenerStatus_lookup supported now gateway kongListens k listener Hk)
    as (tick & Hstatus).
  eexists. split; [exact Hstatus|].
  set (c := claimsAfter _ (take k listeners)).
  assert (Hclaimed' : portsToProtocol c !! Listener.Port listener = Some claimed)
    by by apply claimsAfter_protocol_stable.
  assert (Howner' : inner (portsToHostnames c) (Listener.Port listener)
                      !! hostnameOf listener = Some owner)
    by by apply claimsAfter_hostname_stable.
  split; [|split].
  - intros Hcompatible ->. apply listenerConditions_unconflicted.
    rewrite (conflictCheck_shared c listener claimed) by done.
    by rewrite Howner', String.eqb_refl.
  - intros Hcompatible Hne. apply listenerConditions_conflict.
    rewrite (conflictCheck_shared c listener claimed) by done.
    rewrite Howner'. apply String.eqb_neq in Hne. by rewrite Hne.
  - intros Hincompatible. apply listenerConditions_conflict.
    by rewrite (conflictCheck_incompatible c listener claimed).
Qed.

(** C5 (amended): let A and B be listeners of HTTP, HTTPS or TLS protocol
    on the same port with the same normalized hostname, A being the only
    listener of that port whose previous status carries Conflicted=False.
    Then, wherever A and B stand in the spec, A gets no Conflicted=True
    condition and B gets Conflicted=True, with reason HostnameConflict
    when the protocol of B can share a port claimed for the protocol of A
    (same protocol, or HTTPS with TLS) and ProtocolConflict otherwise. *)
Theorem getListenerStatus_precedence i j A B :
  listeners !! i = Some A → listeners !! j = Some B → i ≠ j →
  Listener.Port A = Listener.Port B → hostnameOf A = hostnameOf B →
  hostnameProtocol (Listener.Protocol A) = true →
  hostnameProtocol (Listener.Protocol B) = true →
  previouslyUnconflicted previous A = true →
  (∀ k listener, listeners !! k = Some listener → k ≠ i →
     Listener.Port listener = Listener.Port A →
     previouslyUnconflicted previous listener = false) →
  ∃ condsA condsB,
    statusAt supported now gateway kongListens i = Some condsA
    ∧ statusAt supported now gateway kongListens j = Some condsB
    ∧ hasConditionStatus ListenerConditionConflicted ConditionTrue condsA = false
    ∧ hasCondition ListenerConditionConflicted ConditionTrue
        (if compatible (Listener.Protocol A) (Listener.Protocol B)
         then ListenerReasonHostnameConflict else ListenerReasonProtocolConflict)
        condsB = true.
Proof.
  intros Hi Hj Hij Hport Hhostname HprotocolA HprotocolB HpreviousA Hothers.
  pose proof (preseed_single_owner previous listeners i A Hi HpreviousA HprotocolA Hothers)
    as Hseeded.
  unfold portView in Hseeded. injection Hseeded as Hpp Hph.
  destruct (hostnameProtocol_shared _ HprotocolA) as (Htcp & Hudp & Hself).
  assert (Hname : Listener.Name A ≠ Listener.Name B).
  { intros Hname. pose proof (Hothers j B Hj ltac:(done) ltac:(done)) as HpreviousB.
    unfold previouslyUnconflicted in HpreviousA, HpreviousB.
    rewrite Hname in HpreviousA. congruence. }
  destruct (getListenerStatus_owned i A (Listener.Protocol A) (Listener.Name A) Hi)
    as (condsA & HstatusA & HfreeA & _); [done|by rewrite Hph, lookup_singleton_eq|done..|].
  destruct (getListenerStatus_owned j B (Listener.Protocol A) (Listener.Name A) Hj)
    as (condsB & HstatusB & _ & HhostB & HprotoB);
    [by rewrite <- Hport|by rewrite <- Hport, <- Hhostname, Hph, lookup_singleton_eq|done..|].
  exists condsA, condsB. split; [done|]. split; [done|]. split; [by apply HfreeA|].
  destruct (compatible (Listener.Protocol A) (Listener.Protocol B)); [by apply HhostB|].
  by apply HprotoB.
Qed.

(** C10 (amended): let A stand before B in the spec, both of HTTP, HTTPS
    or TLS protocol, distinctly named, on the same port with the same
    normalized hostname, both with a previous Conflicted=False status, and
    no other listener of that port with one. The first pass leaves the
    port claimed for the protocol of A (first claim wins) and the hostname
    owned by B (last claim wins); the second pass marks A Conflicted=True
    with reason HostnameConflict; B gets no Conflicted=True condition when
    its protocol can share a port claimed for the protocol of A, and
    Conflicted=True with reason ProtocolConflict otherwise. *)
Theorem getListenerStatus_last_seed_wins i j A B :
  listeners !! i = Some A → listeners !! j = Some B → (i < j)%nat →
  Listener.Port A = Listener.Port B → hostnameOf A = hostnameOf B →
  Listener.Name A ≠ Listener.Name B →
  hostnameProtocol (Listener.Protocol A) = true →
  hostnameProtocol (Listener.Protocol B) = true →
  previouslyUnconflicted previous A = true →
  previouslyUnconflicted previous B = true →
  (∀ k listener, listeners !! k = Some listener → k ≠ i → k ≠ j →
     Listener.Port listener = Listener.Port A →
     previouslyUnconflicted previous listener = false) →
  portsToProtocol (preseed (indexListenerStatuses previous) listeners) !! Listener.Port A =
    Some (Listener.Protocol A)
  ∧ inner (portsToHostnames (preseed (indexListenerStatuses previous) listeners))
      (Listener.Port A) !! hostnameOf A = Some (Listener.Name B)
  ∧ ∃ condsA condsB,
      statusAt supported now gateway kongListens i = Some condsA
      ∧ statusAt supported now gateway kongListens j = Some condsB
      ∧ hasCondition ListenerConditionConflicted ConditionTrue
          ListenerReasonHostnameConflict condsA = true
      ∧ (if compatible (Listener.Protocol A) (Listener.Protocol B)
         then hasConditionStatus ListenerConditionConflicted ConditionTrue condsB = false
         else hasCondition ListenerConditionConflicted ConditionTrue
                ListenerReasonProtocolConflict condsB = true).
Proof.
  intros Hi Hj Hlt Hport Hhostname Hname HprotocolA HprotocolB HpreviousA HpreviousB Hothers.
  destruct (preseed_two_owners previous listeners i j A B) as [Hpp Hph]; [done..|].
  split; [done|]. split; [done|].
  destruct (hostnameProtocol_shared _ HprotocolA) as (Htcp & Hudp & Hself).
  destruct (getListenerStatus_owned i A (Listener.Protocol A) (Listener.Name B) Hi)
    as (condsA & HstatusA & _ & HhostA & _); [done..|].
  destruct (getListenerStatus_owned j B (Listener.Protocol A) (Listener.Name B) Hj)
    as (condsB & HstatusB & HfreeB & _ & HprotoB);
    [by rewrite <- Hport|by rewrite <- Hport, <- Hhostname|done..|].
  exists condsA, condsB. split; [done|]. split; [done|].
  split; [apply HhostA; [done|congruence]|].
  destruct (compatible (Listener.Protocol A) (Listener.Protocol B)); [by apply HfreeB|].
  by apply HprotoB.
Qed.

End PrecedenceProofs.

(** ** Gateways without previous status *)

Section FirstRunProofs.
Variable supported : list RouteGroupKind.t.
Variable now : nat → Time.
Variable gateway : Gateway.t.
Variable kongListens : list Listener.t.
Hypothesis no_previous : GatewayStatus.Listeners (Gateway.Status gateway) = [].

Local Abbreviation listeners := (GatewaySpec.Listeners (Gateway.Spec gateway)).

(** The first listener of a port claims it without any conflict and
    without recording its hostname. *)
Lemma getListenerStatus_first_on_port i A :
  listeners !! i = Some A →
  (∀ k listener, (k < i)%nat → listeners !! k = Some listener →
     Listener.Port listener ≠ Listener.Port A) →
  portView (claimsAfter (mkClaims ∅ ∅) (take (S i) listeners)) (Listener.Port A) =
    (Some (Listener.Protocol A), ∅)
  ∧ ∃ conds,
      statusAt supported now gateway kongListens i = Some conds
      ∧ hasConditionStatus ListenerConditionConflicted ConditionTrue conds = false.
Proof.
  intros Hi Hfirst.
  assert (Hbefore :
    portView (claimsAfter (mkClaims ∅ ∅) (take i listeners)) (Listener.Port A) = (None, ∅)).
  { rewrite (claimsAfter_frame_range _ listeners (Listener.Port A) 0 i);
      [apply portView_initial|lia|].
    intros m listener ? ?. apply (Hfirst m); [lia|done]. }
  unfold portView in Hbefore. injection Hbefore as Hpp Hph.
  split.
  - rewrite (claimsAfter_take_S _ _ _ _ Hi), conflictCheck_unclaimed by done.
    unfold portView. simpl. by rewrite lookup_insert_eq, Hph.
  - destruct (getListenerStatus_lookup supported now gateway kongListens i A Hi)
      as (tick & Hstatus).
    rewrite no_previous, preseed_no_previous in Hstatus.
    eexists. split; [exact Hstatus|].
    apply listenerConditions_unconflicted. by rewrite conflictCheck_unclaimed.
Qed.

(** C4 (amended): on a Gateway without previous status, let a TCP and an
    HTTP listener share a port, the earlier of the two being the first
    listener of that port in the spec. For either order of the two, the
    earlier one claims the port and gets no Conflicted=True condition,
    and the later one gets Conflicted=True with reason ProtocolConflict. *)
Theorem getListenerStatus_protocol_conflict i j A B :
  listeners !! i = Some A → listeners !! j = Some B → (i < j)%nat →
  Listener.Port A = Listener.Port B →
  (Listener.Protocol A = TCPProtocolType ∧ Listener.Protocol B = HTTPProtocolType)
  ∨ (Listener.Protocol A = HTTPProtocolType ∧ Listener.Protocol B = TCPProtocolType) →
  (∀ k listener, (k < i)%nat → listeners !! k = Some listener →
     Listener.Port listener ≠ Listener.Port A) →
  ∃ condsA condsB,
    statusAt supported now gateway kongListens i = Some condsA
    ∧ statusAt supported now gateway kongListens j = Some condsB
    ∧ hasConditionStatus ListenerConditionConflicted ConditionTrue condsA = false
    ∧ hasCondition ListenerConditionConflicted ConditionTrue
        ListenerReasonProtocolConflict condsB = true.
Proof.
  intros Hi Hj Hlt Hport Hprotocols Hfirst.
  destruct (getListenerStatus_first_on_port i A Hi Hfirst)
    as (Hclaim & condsA & HstatusA & HfreeA).
  unfold portView in Hclaim. injection Hclaim as Hpp _.
  destruct (getListenerStatus_lookup supported now gateway kongListens j B Hj)
    as (tick & HstatusB).
  rewrite no_previous, preseed_no_previous in HstatusB.
  exists condsA. eexists. split; [done|]. split; [exact HstatusB|]. split; [done|].
  apply listenerConditions_conflict.
  assert (Hclaimed :
    portsToProtocol (claimsAfter (mkClaims ∅ ∅) (take j listeners)) !! Listener.Port B =
    Some (Listener.Protocol A)).
  { rewrite <- Hport.
    by apply (claimsAfter_take_protocol_stable _ listeners _ _ (S i) j); [lia|]. }
  destruct Hprotocols as [[HA HB]|[HA HB]].
  - rewrite (conflictCheck_exclusive _ B (Listener.Protocol A)); [done|done|by left].
  - rewrite (conflictCheck_incompatible _ B (Listener.Protocol A)); [done|done|].
    by rewrite HA, HB.
Qed.

(** X11: since the first listener of a port does not record its hostname,
    the second listener of the port is never checked against it: when their
    protocols can share the port, neither gets a Conflicted=True
    condition, whatever their hostnames. *)
Lemma getListenerStatus_second_on_port i j A B :
  listeners !! i = Some A → listeners !! j = Some B → (i < j)%nat →
  Listener.Port A = Listener.Port B →
  Listener.Protocol A ≠ TCPProtocolType → Listener.Protocol A ≠ UDPProtocolType →
  compatible (Listener.Protocol A) (Listener.Protocol B) = true →
  (∀ k listener, (k < j)%nat → k ≠ i → listeners !! k = Some listener →
     Listener.Port listener ≠ Listener.Port A) →
  ∃ condsA condsB,
    statusAt supported now gateway kongListens i = Some condsA
    ∧ statusAt supported now gateway kongListens j = Some condsB
    ∧ hasConditionStatus ListenerConditionConflicted ConditionTrue condsA = false
    ∧ hasConditionStatus ListenerConditionConflicted ConditionTrue condsB = false.
Proof.
  intros Hi Hj Hlt Hport Htcp Hudp Hcompatible Honly.
  destruct (getListenerStatus_first_on_port i A Hi)
    as (Hclaim & condsA & HstatusA & HfreeA).
  { intros k listener ? ?. apply (Honly k); [lia|lia|done]. }
  assert (Hbetween :
    portView (claimsAfter (mkClaims ∅ ∅) (take j listeners)) (Listener.Port A) =
    portView (claimsAfter (mkClaims ∅ ∅) (take (S i) listeners)) (Listener.Port A)).
  { apply claimsAfter_frame_range; [lia|].
    intros m listener ? ?. apply (Honly m); [lia|lia|done]. }
  rewrite Hclaim in Hbetween. unfold portView in Hbetween.
  injection Hbetween as Hpp Hph.
  destruct (getListenerStatus_lookup supported now gateway kongListens j B Hj)
    as (tick & HstatusB).
  rewrite no_previous, preseed_no_previous in HstatusB.
  exists condsA. eexists. split; [done|]. split; [exact HstatusB|]. split; [done|].
  apply listenerConditions_unconflicted.
  rewrite (conflictCheck_shared _ B (Listener.Protocol A)); [|by rewrite <- Hport|done..].
  by rewrite <- Hport, Hph, lookup_empty.
Qed.

End FirstRunProofs.

(** ** The sample Gateways *)

(** C4, counterexample: in [tcpHttpGateway] the TCP listener stands first
    and shares port 80 with the HTTP listener; it gets no Conflicted=True
    condition at all, so not both listeners are marked ProtocolConflict. *)
Lemma getListenerStatus_first_claim_unconflicted :
  ∃ conds,
    statusAt sampleKinds sampleClock tcpHttpGateway tcpHttpListens 0 = Some conds
    ∧ hasConditionStatus ListenerConditionConflicted ConditionTrue conds = false
    ∧ hasCondition ListenerConditionConflicted ConditionTrue
        ListenerReasonProtocolConflict conds = false.
Proof. eexists. repeat split; reflexivity. Qed.

(** In [tcpHttpGateway] the TCP listener keeps the port and the HTTP
    listener is marked ProtocolConflict. *)
Lemma getListenerStatus_protocol_conflict_witness :
  ∃ condsA condsB,
    statusAt sampleKinds sampleClock tcpHttpGateway tcpHttpListens 0 = Some condsA
    ∧ statusAt sampleKinds sampleClock tcpHttpGateway tcpHttpListens 1 = Some condsB
    ∧ hasConditionStatus ListenerConditionConflicted ConditionTrue condsA = false
    ∧ hasCondition ListenerConditionConflicted ConditionTrue
        ListenerReasonProtocolConflict condsB = true.
Proof.
  apply (getListenerStatus_protocol_conflict sampleKinds sampleClock tcpHttpGateway
           tcpHttpListens eq_refl 0 1
           (Listener.mk "tcp" None 80 TCPProtocolType)
           (Listener.mk "http" None 80 HTTPProtocolType)).
  - reflexivity.
  - reflexivity.
  - lia.
  - reflexivity.
  - left. split; reflexivity.
  - intros k listener Hk. lia.
Defined.

(** C5, counterexample: in [mixedGateway] listener a is HTTP and was
    Conflicted=False, listener b is HTTPS with no previous status, both on
    port 80 with hostname a.com; b gets no HostnameConflict condition (its
    Conflicted=True condition has reason ProtocolConflict). *)
Lemma getListenerStatus_mixed_protocols_reason :
  previouslyUnconflicted (GatewayStatus.Listeners (Gateway.Status mixedGateway))
    (Listener.mk "a" (Some "a.com") 80 HTTPProtocolType) = true
  ∧ previouslyUnconflicted (GatewayStatus.Listeners (Gateway.Status mixedGateway))
      (Listener.mk "b" (Some "a.com") 80 HTTPSProtocolType) = false
  ∧ ∃ conds,
      statusAt sampleKinds sampleClock mixedGateway hostListens 1 = Some conds
      ∧ hasCondition ListenerConditionConflicted ConditionTrue
          ListenerReasonHostnameConflict conds = false
      ∧ hasCondition ListenerConditionConflicted ConditionTrue
          ListenerReasonProtocolConflict conds = true.
Proof. split; [reflexivity|]. split; [reflexivity|]. eexists. repeat split; reflexivity. Qed.

(** In [precedenceGateway] listener b stands first in the spec, yet the
    previously unconflicted listener a stays free of conflict and b is
    marked HostnameConflict. *)
Lemma getListenerStatus_precedence_witness :
  ∃ condsA condsB,
    statusAt sampleKinds sampleClock precedenceGateway hostListens 1 = Some condsA
    ∧ statusAt sampleKinds sampleClock precedenceGateway hostListens 0 = Some condsB
    ∧ hasConditionStatus ListenerConditionConflicted ConditionTrue condsA = false
    ∧ hasCondition ListenerConditionConflicted ConditionTrue
        ListenerReasonHostnameConflict condsB = true.
Proof.
  apply (getListenerStatus_precedence sampleKinds sampleClock precedenceGateway
           hostListens 1 0
           (Listener.mk "a" (Some "a.com") 80 HTTPProtocolType)
           (Listener.mk "b" (Some "a.com") 80 HTTPProtocolType)).
  - reflexivity.
  - reflexivity.
  - lia.
  - reflexivity.
  - reflexivity.
  - reflexivity.
  - reflexivity.
  - reflexivity.
  - intros k listener Hk Hne _.
    destruct k as [|[|k]]; [|done|done].
    injection Hk as <-. reflexivity.
Defined.

(** C6: the claim that two HTTPS listeners with hostname a.com on one port
    produce a Conflicted=True condition with reason HostnameConflict fails
    on [twoHttpsGateway], which has no previous status: the first listener
    claims the port without recording its hostname, so the second claims
    the hostname unopposed and neither status has a Conflicted=True
    condition. *)
Theorem getListenerStatus_same_hostname_unnoticed :
  ∃ condsA condsB,
    statusAt sampleKinds sampleClock twoHttpsGateway hostListens 0 = Some condsA
    ∧ statusAt sampleKinds sampleClock twoHttpsGateway hostListens 1 = Some condsB
    ∧ hasConditionStatus ListenerConditionConflicted ConditionTrue condsA = false
    ∧ hasConditionStatus ListenerConditionConflicted ConditionTrue condsB = false.
Proof. do 2 eexists. repeat split; reflexivity. Qed.

(** C10, counterexample: in [bothSeededMixedGateway] listener a is HTTP,
    listener b is HTTPS, both were Conflicted=False and both are on port 80
    with hostname a.com; the later listener b does receive a conflict
    condition: Conflicted=True with reason ProtocolConflict. *)
Lemma getListenerStatus_later_seed_conflicted :
  previouslyUnconflicted (GatewayStatus.Listeners (Gateway.Status bothSeededMixedGateway))
    (Listener.mk "a" (Some "a.com") 80 HTTPProtocolType) = true
  ∧ previouslyUnconflicted (GatewayStatus.Listeners (Gateway.Status bothSeededMixedGateway))
      (Listener.mk "b" (Some "a.com") 80 HTTPSProtocolType) = true
  ∧ ∃ conds,
      statusAt sampleKinds sampleClock bothSeededMixedGateway hostListens 1 = Some conds
      ∧ hasConditionStatus ListenerConditionConflicted ConditionTrue conds = true
      ∧ hasCondition ListenerConditionConflicted ConditionTrue
          ListenerReasonProtocolConflict conds = true.
Proof. split; [reflexivity|]. split; [reflexivity|]. eexists. repeat split; reflexivity. Qed.

(** In [bothSeededGateway] both listeners are HTTP and were
    Conflicted=False: the later listener b owns the hostname, the earlier
    listener a is marked HostnameConflict and b stays free of conflict. *)
Lemma getListenerStatus_last_seed_wins_witness :
  portsToProtocol
    (preseed (indexListenerStatuses (GatewayStatus.Listeners (Gateway.Status bothSeededGateway)))
       (GatewaySpec.Listeners (Gateway.Spec bothSeededGateway))) !! 80%Z =
    Some HTTPProtocolType
  ∧ inner
      (portsToHostnames
         (preseed
            (indexListenerStatuses (GatewayStatus.Listeners (Gateway.Status bothSeededGateway)))
            (GatewaySpec.Listeners (Gateway.Spec bothSeededGateway)))) 80%Z !! "a.com" =
      Some "b"
  ∧ ∃ condsA condsB,
      statusAt sampleKinds sampleClock bothSeededGateway hostListens 0 = Some condsA
      ∧ statusAt sampleKinds sampleClock bothSeededGateway hostListens 1 = Some condsB
      ∧ hasCondition ListenerConditionConflicted ConditionTrue
          ListenerReasonHostnameConflict condsA = true
      ∧ hasConditionStatus ListenerConditionConflicted ConditionTrue condsB = false.
Proof.
  apply (getListenerStatus_last_seed_wins sampleKinds sampleClock bothSeededGateway
           hostListens 0 1
           (Listener.mk "a" (Some "a.com") 80 HTTPProtocolType)
           (Listener.mk "b" (Some "a.com") 80 HTTPProtocolType)).
  - reflexivity.
  - reflexivity.
  - lia.
  - reflexivity.
  - reflexivity.
  - discriminate.
  - reflexivity.
  - reflexivity.
  - reflexivity.
  - reflexivity.
  - intros k listener Hk Hi Hj _. destruct k as [|[|k]]; done.
Defined.

(** * Further properties of the package *)

(** ** Publish service reference *)

Lemma occurs_occurrences c s : occurs c s = false ↔ occurrences c s = 0%nat.
Proof.
  induction s as [|c' s IH]; simpl; [done|].
  destruct (Ascii.eqb c' c); simpl; [split; [done|lia]|done].
Qed.

Lemma occurrences_app c s1 s2 :
  occurrences c (String.append s1 s2) = (occurrences c s1 + occurrences c s2)%nat.
Proof. induction s1 as [|c' s1 IH]; simpl; [done|]. rewrite IH. lia. Qed.

Lemma cut_None sep s : cut sep s = None ↔ occurs sep s = false.
Proof.
  induction s as [|c s IH]; simpl; [done|].
  destruct (Ascii.eqb c sep); simpl; [done|].
  destruct (cut sep s) as [[before after]|]; [|done].
  split; [done|]. intros Hno. apply IH in Hno. done.
Qed.

Lemma cut_append sep before after :
  occurs sep before = false →
  cut sep (String.append before (String sep after)) = Some (before, after).
Proof.
  induction before as [|c before IH]; simpl.
  - intros _. by rewrite Ascii.eqb_refl.
  - intros [Hc Hno]%orb_false_iff. by rewrite Hc, IH.
Qed.

Lemma cut_Some_inv sep s before after :
  cut sep s = Some (before, after) →
  s = String.append before (String sep after) ∧ occurs sep before = false.
Proof.
  revert before. induction s as [|c s IH]; intros before; simpl; [done|].
  destruct (Ascii.eqb_spec c sep) as [->|Hne].
  - by intros [= <- <-].
  - destruct (cut sep s) as [[before' after']|]; [|done].
    intros [= <- <-]. destruct (IH before' eq_refl) as [-> Hno].
    simpl. split; [done|]. apply Ascii.eqb_neq in Hne. by rewrite Hne.
Qed.

Lemma cut_Some sep s before after :
  cut sep s = Some (before, after) ↔
  s = String.append before (String sep after) ∧ occurs sep before = false.
Proof.
  split; [apply cut_Some_inv|]. intros [-> Hno]. by apply cut_append.
Qed.

(** X1: [getRefFromPublishService] returns a reference exactly for the
    strings of the form namespace/name in which neither part contains a
    slash, and the reference it returns holds these two parts (either may
    be empty); composing them again gives back the input. *)
Theorem getRefFromPublishService_ok publishService ref :
  getRefFromPublishService publishService = inl ref ↔
  publishService = publishServiceOf ref
  ∧ occurs "/" (NamespacedName.Namespace ref) = false
  ∧ occurs "/" (NamespacedName.Name ref) = false.
Proof.
  unfold getRefFromPublishService, publishServiceOf. cbn [SplitN].
  destruct (cut "/" publishService) as [[namespace rest]|] eqn:Hfirst.
  - destruct (cut "/" rest) as [[name more]|] eqn:Hsecond.
    + cbn. split; [done|]. intros (-> & Hnamespace & Hname).
      destruct ref as [refNamespace refName]. simpl in *.
      assert (Hcut : cut "/" (String.append refNamespace (String "/" refName)) =
                     Some (refNamespace, refName)) by by apply cut_Some.
      rewrite Hcut in Hfirst. injection Hfirst as <- <-.
      apply cut_None in Hname. congruence.
    + cbn. apply cut_Some in Hfirst as [-> Hnamespace]. apply cut_None in Hsecond.
      split.
      * by intros [= <-].
      * intros (Hs & Hrefnamespace & Hname).
        destruct ref as [refNamespace refName]. simpl in *.
        assert (Hcut : cut "/" (String.append refNamespace (String "/" refName)) =
                       Some (refNamespace, refName)) by by apply cut_Some.
        rewrite <- Hs in Hcut.
        assert (Hcut' : cut "/" (String.append namespace (String "/" rest)) =
                        Some (namespace, rest)) by by apply cut_Some.
        congruence.
  - cbn. split; [done|]. intros (-> & Hnamespace & _).
    assert (Hcut : cut "/" (String.append (NamespacedName.Namespace ref)
                              (String "/" (NamespacedName.Name ref))) =
                   Some (NamespacedName.Namespace ref, NamespacedName.Name ref))
      by by apply cut_Some.
    congruence.
Qed.

(** X2: [getRefFromPublishService] fails exactly when the number of
    slashes in the string is not one (none, as in the empty string, or
    two and more), and the error then quotes the whole input. *)
Theorem getRefFromPublishService_error publishService :
  getRefFromPublishService publishService = inr (publishServiceError publishService)
  ↔ occurrences "/" publishService ≠ 1%nat.
Proof.
  unfold getRefFromPublishService, publishServiceError. cbn [SplitN].
  destruct (cut "/" publishService) as [[namespace rest]|] eqn:Hfirst.
  - apply cut_Some in Hfirst as [-> Hnamespace].
    apply occurs_occurrences in Hnamespace.
    rewrite occurrences_app, Hnamespace. cbn [occurrences].
    rewrite Ascii.eqb_refl.
    destruct (cut "/" rest) as [[name more]|] eqn:Hsecond.
    + apply cut_Some in Hsecond as [-> _]. rewrite occurrences_app. cbn.
      split; [lia|done].
    + apply cut_None, occurs_occurrences in Hsecond. rewrite Hsecond. cbn.
      split; [done|lia].
  - apply cut_None, occurs_occurrences in Hfirst. rewrite Hfirst. cbn.
    split; [lia|done].
Qed.

(** ** Object metadata *)

Lemma deepCopy_id (m : gmap string string) : deepCopy m = m.
Proof.
  unfold deepCopy.
  apply (map_fold_weak_ind (λ result m, result = m)); [done|].
  by intros k v m' result _ ->.
Qed.

(** X3: [FromK8sObject] returns the object's name and namespace and an
    annotation map with exactly the object's annotations; it carries the
    object's GroupVersionKind over whenever its string form is not empty
    or it is the zero value, and leaves the zero value otherwise. *)
Theorem FromK8sObject_fields (gvkString : GroupVersionKind.t → string)
    {A} `{ObjMetaTyper A} (obj : A) :
  K8sObjectInfo.Name (FromK8sObject gvkString obj) = GetName obj
  ∧ K8sObjectInfo.Namespace (FromK8sObject gvkString obj) = GetNamespace obj
  ∧ (∀ key, K8sObjectInfo.Annotations (FromK8sObject gvkString obj) !! key =
            GetAnnotations obj !! key)
  ∧ (gvkString (GetGroupVersionKind obj) ≠ ""
     ∨ GetGroupVersionKind obj = GroupVersionKind.zero →
     K8sObjectInfo.GroupVersionKind (FromK8sObject gvkString obj) =
       GetGroupVersionKind obj)
  ∧ (gvkString (GetGroupVersionKind obj) = "" →
     K8sObjectInfo.GroupVersionKind (FromK8sObject gvkString obj) =
       GroupVersionKind.zero).
Proof.
  unfold FromK8sObject.
  destruct (String.eqb_spec (gvkString (GetGroupVersionKind obj)) "") as [Hempty|Hstring];
    cbn; rewrite deepCopy_id; repeat split; try done.
  all: intros [?| ->]; done.
Qed.

(** The sample service object keeps its kind. *)
Lemma FromK8sObject_fields_witness :
  K8sObjectInfo.GroupVersionKind (FromK8sObject sampleGvkString sampleObject) =
  GroupVersionKind.mk "" "v1" "Service".
Proof.
  destruct (FromK8sObject_fields sampleGvkString sampleObject)
    as (_ & _ & _ & Hcarried & _).
  apply Hcarried. left. discriminate.
Defined.

(** ** Unmanaged gateways and the watch predicate *)

(** X4: a GatewayClass accepted by [isGatewayInClassAndUnmanaged] (for
    whatever Gateway) is one whose watch events
    [isGatewayClassEventInClass] lets through: the call returns true when
    the class arrives in a create, delete or generic event or as the old
    object of an update (whatever the new object), and also as the new
    object of an update unless the old object is a nil [*GatewayClass]
    pointer, on which the call panics; and a Gateway without the
    unmanaged annotation is never accepted. *)
Theorem isGatewayInClassAndUnmanaged_event controllerName extract gatewayClass gateway :
  (isGatewayInClassAndUnmanaged controllerName extract gatewayClass gateway = true →
   ∀ other,
     (isGatewayClassEventInClass controllerName
        (CreateEvent (GatewayClassObject gatewayClass))).2 = Returned true
     ∧ (isGatewayClassEventInClass controllerName
          (DeleteEvent (GatewayClassObject gatewayClass))).2 = Returned true
     ∧ (isGatewayClassEventInClass controllerName
          (GenericEvent (GatewayClassObject gatewayClass))).2 = Returned true
     ∧ (isGatewayClassEventInClass controllerName
          (UpdateEvent (GatewayClassObject gatewayClass) other)).2 = Returned true
     ∧ (isGatewayClassEventInClass controllerName
          (UpdateEvent other (GatewayClassObject gatewayClass))).2 =
         if nilClassPointer other then Panicked else Returned true)
  ∧ ((extract (ObjectMeta.Annotations (Gateway.Meta gateway))).2 = false →
     isGatewayInClassAndUnmanaged controllerName extract gatewayClass gateway = false).
Proof.
  unfold isGatewayInClassAndUnmanaged.
  destruct (extract (ObjectMeta.Annotations (Gateway.Meta gateway))) as [mode ok].
  split.
  - intros [_ Hname]%andb_true_iff other.
    repeat split; simpl; rewrite ?Hname; try done.
    destruct other as [gwc| |other|typeName|]; simpl; rewrite ?Hname; try done.
    by destruct (GatewayClass.ControllerName gwc =? controllerName).
  - simpl. by intros ->.
Qed.

(** The class of this controller and a Gateway annotated as unmanaged. *)
Lemma isGatewayInClassAndUnmanaged_event_witness :
  (isGatewayClassEventInClass "konghq.com/kic-gateway-controller"
     (UpdateEvent NilObject
        (GatewayClassObject (sampleClass "konghq.com/kic-gateway-controller")))).2 =
    Returned true
  ∧ (isGatewayClassEventInClass "konghq.com/kic-gateway-controller"
       (UpdateEvent NilGatewayClassObject
          (GatewayClassObject (sampleClass "konghq.com/kic-gateway-controller")))).2 =
      Panicked
  ∧ isGatewayInClassAndUnmanaged "konghq.com/kic-gateway-controller"
      sampleExtractUnmanaged (sampleClass "konghq.com/kic-gateway-controller")
      webGateway = false.
Proof.
  destruct (isGatewayInClassAndUnmanaged_event "konghq.com/kic-gateway-controller"
              sampleExtractUnmanaged (sampleClass "konghq.com/kic-gateway-controller")
              unmanagedGateway) as [Hevents _].
  split; [|split].
  - destruct (Hevents eq_refl NilObject) as (_ & _ & _ & _ & Hnew). exact Hnew.
  - destruct (Hevents eq_refl NilGatewayClassObject) as (_ & _ & _ & _ & Hnew).
    exact Hnew.
  - destruct (isGatewayInClassAndUnmanaged_event "konghq.com/kic-gateway-controller"
                sampleExtractUnmanaged (sampleClass "konghq.com/kic-gateway-controller")
                webGateway) as [_ Hplain].
    apply Hplain. reflexivity.
Defined.

Lemma classObjectsLoop_log controllerName objs log :
  (classObjectsLoop controllerName log objs).2 = Returned false →
  (classObjectsLoop controllerName log objs).1 =
  log ++ map invalidObjectEntry
           (List.filter (λ obj, negb (isGatewayClassObject obj)) objs).
Proof.
  revert log. induction objs as [|obj objs IH]; intros log; simpl.
  - intros _. by rewrite app_nil_r.
  - destruct obj as [gwc| |gateway|typeName|]; simpl.
    + destruct (GatewayClass.ControllerName gwc =? controllerName); [done|]. apply IH.
    + done.
    + intros Hresult. rewrite (IH _ Hresult). by rewrite <- app_assoc.
    + intros Hresult. rewrite (IH _ Hresult). by rewrite <- app_assoc.
    + intros Hresult. rewrite (IH _ Hresult). by rewrite <- app_assoc.
Qed.

(** X5: when [isGatewayClassEventInClass] finds an event irrelevant, it
    has logged exactly one error per payload object that is not a
    GatewayClass, in payload order, each naming the object's type (and a
    GatewayClass of another controller is passed over silently); for a
    value that is no event it has logged one error naming its type. *)
Theorem isGatewayClassEventInClass_log controllerName watchEvent :
  (isGatewayClassEventInClass controllerName watchEvent).2 = Returned false →
  (isGatewayClassEventInClass controllerName watchEvent).1 =
  match watchEvent with
  | NotAnEvent typeName =>
      [mkLogEntry "received invalid event type in event handlers" typeName]
  | _ =>
      map invalidObjectEntry
        (List.filter (λ obj, negb (isGatewayClassObject obj)) (eventObjects watchEvent))
  end.
Proof.
  destruct watchEvent as [object|object|object|objectOld objectNew|typeName];
    [..|done]; intros Hresult;
    apply (classObjectsLoop_log controllerName _ []) in Hresult; exact Hresult.
Qed.

(** An update from a Gateway to a class of another controller logs the
    Gateway only. *)
Lemma isGatewayClassEventInClass_log_witness :
  (isGatewayClassEventInClass "konghq.com/kic-gateway-controller"
     (UpdateEvent (GatewayObject webGateway)
        (GatewayClassObject (sampleClass "example.com/other")))).1 =
  [invalidObjectEntry (GatewayObject webGateway)].
Proof.
  apply (isGatewayClassEventInClass_log "konghq.com/kic-gateway-controller"
           (UpdateEvent (GatewayObject webGateway)
              (GatewayClassObject (sampleClass "example.com/other")))).
  reflexivity.
Defined.

(** ** Pruning and the state predicates *)

(** X6: after [pruneGatewayStatusConds] a Gateway has at most [maxConds]
    top-level conditions, and its most recently appended condition (the
    last one) is never dropped. *)
Theorem pruneGatewayStatusConds_bound gateway :
  (length (Gateway.Conditions (pruneGatewayStatusConds gateway)) ≤ maxConds)%nat
  ∧ last (Gateway.Conditions (pruneGatewayStatusConds gateway)) =
    last (Gateway.Conditions gateway).
Proof.
  split.
  - rewrite pruneGatewayStatusConds_length. lia.
  - rewrite pruneGatewayStatusConds_conditions.
    set (conds := Gateway.Conditions gateway).
    rewrite !last_lookup, lookup_drop, length_drop. f_equal.
    unfold maxConds. destruct (length conds); lia.
Qed.

Lemma existsb_drop {A} (f : A → bool) (l : list A) (n : nat) :
  existsb f (drop n l) = true → existsb f l = true.
Proof.
  rewrite !existsb_exists. intros (x & Hin & Hf). exists x. split; [|done].
  apply list_elem_of_In. apply list_elem_of_In in Hin.
  by eapply subseteq_drop.
Qed.

(** X7: pruning never makes a Gateway ready or scheduled: if
    [isGatewayReady] (or [isGatewayScheduled]) holds after
    [pruneGatewayStatusConds], it held before; and both are unchanged for
    a Gateway with at most [maxConds] conditions. *)
Theorem pruneGatewayStatusConds_predicates gateway :
  (isGatewayReady (pruneGatewayStatusConds gateway) = true →
   isGatewayReady gateway = true)
  ∧ (isGatewayScheduled (pruneGatewayStatusConds gateway) = true →
     isGatewayScheduled gateway = true)
  ∧ ((length (Gateway.Conditions gateway) ≤ maxConds)%nat →
     isGatewayReady (pruneGatewayStatusConds gateway) = isGatewayReady gateway
     ∧ isGatewayScheduled (pruneGatewayStatusConds gateway) = isGatewayScheduled gateway).
Proof.
  split; [|split].
  - unfold isGatewayReady. rewrite pruneGatewayStatusConds_conditions.
    assert (Hgeneration :
      Gateway.Generation (pruneGatewayStatusConds gateway) = Gateway.Generation gateway).
    { unfold pruneGatewayStatusConds. by case_match. }
    rewrite Hgeneration. apply existsb_drop.
  - unfold isGatewayScheduled. rewrite pruneGatewayStatusConds_conditions.
    apply existsb_drop.
  - intros Hle. by rewrite pruneGatewayStatusConds_compliant.
Qed.

(** With five conditions pruning leaves readiness as it is. *)
Lemma pruneGatewayStatusConds_predicates_witness :
  isGatewayReady (pruneGatewayStatusConds (sampleGateway 1 (numberedConditions 5) [] [])) =
  isGatewayReady (sampleGateway 1 (numberedConditions 5) [] []).
Proof.
  destruct (pruneGatewayStatusConds_predicates (sampleGateway 1 (numberedConditions 5) [] []))
    as (_ & _ & Hsmall).
  destruct Hsmall as [Hready _]; [vm_compute; lia|]. exact Hready.
Defined.

(** ** Fan-out over several lists *)

(** X8: the fan-out distributes over concatenation: the requests for two
    lists of Gateways put together are the requests for the first list
    followed by those for the second; the empty list gives no request. *)
Theorem reconcileGatewaysIfClassMatches_app {O} `{ClientObject O}
    (gatewayClass : O) (gateways1 gateways2 : list Gateway.t) :
  reconcileGatewaysIfClassMatches gatewayClass (gateways1 ++ gateways2) =
  reconcileGatewaysIfClassMatches gatewayClass gateways1
  ++ reconcileGatewaysIfClassMatches gatewayClass gateways2
  ∧ reconcileGatewaysIfClassMatches gatewayClass [] = [].
Proof.
  split; [|done]. unfold reconcileGatewaysIfClassMatches.
  rewrite !reconcile_loop. simpl. by rewrite filter_app, map_app.
Qed.

(** ** Shape of the listener statuses *)

Lemma indexListenerStatuses_lookup previous name :
  indexListenerStatuses previous !! name = previousStatus previous name.
Proof.
  unfold indexListenerStatuses, previousStatus.
  induction previous as [|listenerStatus previous IH] using rev_ind; [done|].
  rewrite fold_left_app, filter_app. simpl.
  destruct (decide (ListenerStatus.Name listenerStatus = name)) as [Hname|Hname].
  - rewrite Hname, lookup_insert_eq.
    rewrite filter_cons_True by done. by rewrite filter_nil, last_snoc.
  - rewrite lookup_insert_ne by done. rewrite IH.
    rewrite filter_cons_False by done. by rewrite filter_nil, app_nil_r.
Qed.

Section ShapeProofs.
Variable supported : list RouteGroupKind.t.
Variable now : nat → Time.

Lemma evalLoop_shape generation protocols previous listeners st :
  ∃ appended,
    statuses (fold_left
                (evalListener supported now generation protocols
                   (indexListenerStatuses previous))
                listeners st) = statuses st ++ appended
    ∧ Forall2
        (λ listener status,
          ListenerStatus.Name status = Listener.Name listener
          ∧ ListenerStatus.SupportedKinds status = supported
          ∧ ListenerStatus.AttachedRoutes status = carriedRoutes previous listener)
        listeners appended.
Proof.
  revert st. induction listeners as [|listener listeners IH]; intros st; simpl.
  - exists []. by rewrite app_nil_r.
  - destruct (IH (evalListener supported now generation protocols
                    (indexListenerStatuses previous) st listener))
      as (appended & -> & Hall).
    unfold evalListener at 1.
    destruct (conflictCheck (claims st) listener) as [conflict c].
    destruct (listenerConditions now generation protocols conflict (ticks st) listener)
      as [conditions tick].
    cbn [statuses]. eexists (_ :: appended). rewrite <- app_assoc.
    split; [reflexivity|].
    constructor; [|done]. simpl. split; [done|]. split; [done|].
    unfold carriedRoutes. by rewrite indexListenerStatuses_lookup.
Qed.

(** X12: [getListenerStatus] returns one status per spec listener, in spec
    order, each with the listener's name, the supported route kinds of
    the controller, and the attached routes of the last previous status
    of that name (0 when there is none); so a Gateway without listeners
    gets no status. *)
Theorem getListenerStatus_shape gateway kongListens :
  Forall2
    (λ listener status,
      ListenerStatus.Name status = Listener.Name listener
      ∧ ListenerStatus.SupportedKinds status = supported
      ∧ ListenerStatus.AttachedRoutes status =
          carriedRoutes (GatewayStatus.Listeners (Gateway.Status gateway)) listener)
    (GatewaySpec.Listeners (Gateway.Spec gateway))
    (getListenerStatus supported now gateway kongListens).
Proof.
  unfold getListenerStatus. cbv zeta.
  edestruct evalLoop_shape as (appended & -> & Hall). exact Hall.
Qed.

Lemma listenerConditions_emitted generation protocols conflict tick listener :
  Forall (emittedCondition generation)
    (listenerConditions now generation protocols conflict tick listener).1.
Proof.
  conditions_cases protocols listener conflict;
    repeat (apply Forall_cons_2; [unfold emittedCondition; simpl; auto 10|]);
    apply Forall_nil_2.
Qed.

(** X13: every condition of every listener status is observed at the
    Gateway's current generation, has type Conflicted, Detached or Ready,
    and has status True or False (never Unknown). *)
Theorem getListenerStatus_emitted gateway kongListens status :
  status ∈ getListenerStatus supported now gateway kongListens →
  Forall (emittedCondition (Gateway.Generation gateway))
    (ListenerStatus.Conditions status).
Proof.
  intros [i Hi]%list_elem_of_lookup.
  pose proof (lookup_lt_Some _ _ _ Hi) as Hlt.
  rewrite getListenerStatus_length in Hlt.
  destruct (lookup_lt_is_Some_2 _ _ Hlt) as [listener Hlistener].
  destruct (getListenerStatus_lookup supported now gateway kongListens i listener Hlistener)
    as (tick & Hstatus).
  unfold statusAt in Hstatus. rewrite Hi in Hstatus. injection Hstatus as ->.
  apply listenerConditions_emitted.
Qed.

Lemma listenerConditions_readiness generation protocols conflict tick listener :
  let conds := (listenerConditions now generation protocols conflict tick listener).1 in
  hasCondition ListenerConditionReady ConditionTrue ListenerReasonReady conds =
    negb (hasConditionStatus ListenerConditionConflicted ConditionTrue conds)
    && match inner protocols (Listener.Protocol listener) !! Listener.Port listener with
       | Some _ => true
       | None => false
       end
  ∧ hasCondition ListenerConditionReady ConditionFalse ListenerReasonPending conds =
      negb (hasCondition ListenerConditionReady ConditionTrue ListenerReasonReady conds)
  ∧ hasCondition ListenerConditionConflicted ConditionFalse ListenerReasonNoConflicts conds =
      hasCondition ListenerConditionReady ConditionTrue ListenerReasonReady conds
  ∧ hasConditionStatus ListenerConditionConflicted ConditionFalse conds =
      hasCondition ListenerConditionReady ConditionTrue ListenerReasonReady conds
  ∧ ∃ ready, last conds = Some ready ∧ Condition.Type_ ready = ListenerConditionReady.
Proof.
  conditions_cases protocols listener conflict;
    try (repeat split; try done; eexists; split; reflexivity).
  all: exfalso; apply map_size_empty_iff in Hsize; rewrite Hsize in Hport;
    by rewrite lookup_empty in Hport.
Qed.

(** X14: the status of every listener ends with its Ready condition; it is
    Ready=True (reason Ready) exactly when the listener has no
    Conflicted=True condition and the data plane listens on its port with
    its protocol, and Ready=False (reason Pending) otherwise; the
    Conflicted=False condition (reason NoConflicts) is emitted exactly
    together with Ready=True, so a listener that is unconflicted but
    detached carries no Conflicted condition at all. *)
Theorem getListenerStatus_readiness gateway kongListens i listener :
  GatewaySpec.Listeners (Gateway.Spec gateway) !! i = Some listener →
  ∃ conds,
    statusAt supported now gateway kongListens i = Some conds
    ∧ hasCondition ListenerConditionReady ConditionTrue ListenerReasonReady conds =
        negb (hasConditionStatus ListenerConditionConflicted ConditionTrue conds)
        && listensOn kongListens (Listener.Protocol listener) (Listener.Port listener)
    ∧ hasCondition ListenerConditionReady ConditionFalse ListenerReasonPending conds =
        negb (hasCondition ListenerConditionReady ConditionTrue ListenerReasonReady conds)
    ∧ hasCondition ListenerConditionConflicted ConditionFalse ListenerReasonNoConflicts conds =
        hasCondition ListenerConditionReady ConditionTrue ListenerReasonReady conds
    ∧ hasConditionStatus ListenerConditionConflicted ConditionFalse conds =
        hasCondition ListenerConditionReady ConditionTrue ListenerReasonReady conds
    ∧ ∃ ready, last conds = Some ready ∧ Condition.Type_ ready = ListenerConditionReady.
Proof.
  intros Hi.
  destruct (getListenerStatus_lookup supported now gateway kongListens i listener Hi)
    as (tick & Hstatus).
  eexists. split; [exact Hstatus|].
  edestruct listenerConditions_readiness as (Hready & Hrest). split; [|exact Hrest].
  rewrite Hready, indexKongListens_port.
  by destruct (listensOn kongListens (Listener.Protocol listener) (Listener.Port listener)).
Qed.

(** X15: over a data plane without any listen, every listener gets
    Detached=True with reason UnsupportedProtocol and with reason
    PortUnavailable, and Ready=False with reason Pending. *)
Theorem getListenerStatus_no_listens gateway i listener :
  GatewaySpec.Listeners (Gateway.Spec gateway) !! i = Some listener →
  ∃ conds,
    statusAt supported now gateway [] i = Some conds
    ∧ hasCondition ListenerConditionDetached ConditionTrue
        ListenerReasonUnsupportedProtocol conds = true
    ∧ hasCondition ListenerConditionDetached ConditionTrue
        ListenerReasonPortUnavailable conds = true
    ∧ hasCondition ListenerConditionReady ConditionFalse ListenerReasonPending conds = true
    ∧ hasCondition ListenerConditionReady ConditionTrue ListenerReasonReady conds = false.
Proof.
  intros Hi.
  destruct (getListenerStatus_lookup supported now gateway [] i listener Hi)
    as (tick & Hstatus).
  eexists. split; [exact Hstatus|].
  edestruct listenerConditions_readiness as (Hready & Hpending & _).
  rewrite Hpending, Hready.
  split; [by apply listenerConditions_unsupported|].
  split; [by apply listenerConditions_unavailable|].
  cbn. by rewrite andb_false_r.
Qed.

End ShapeProofs.

(** ** TCP and UDP listeners *)

Lemma preseedOnce_protocol_stable c listener port claimed :
  portsToProtocol c !! port = Some claimed →
  portsToProtocol (preseedOnce c listener) !! port = Some claimed.
Proof.
  intros Hclaimed. rewrite preseedOnce_unfold. simpl.
  destruct (portsToProtocol c !! Listener.Port listener) eqn:Hlistener; [done|].
  rewrite lookup_insert_ne; [done|congruence].
Qed.

Lemma preseed_loop_protocol_stable previous listeners c port claimed :
  portsToProtocol c !! port = Some claimed →
  portsToProtocol
    (fold_left (preseedListener (indexListenerStatuses previous)) listeners c) !! port =
  Some claimed.
Proof.
  revert c. induction listeners as [|listener listeners IH]; intros c Hclaimed; [done|].
  simpl. apply IH. rewrite preseedListener_cases.
  destruct (previouslyUnconflicted previous listener); [|done].
  by apply preseedOnce_protocol_stable.
Qed.

(** The first pass claims the port of every previously unconflicted
    listener, for this listener or for an earlier one. *)
Lemma preseed_claims_port previous listeners i listener :
  listeners !! i = Some listener →
  previouslyUnconflicted previous listener = true →
  is_Some (portsToProtocol (preseed (indexListenerStatuses previous) listeners)
             !! Listener.Port listener).
Proof.
  intros Hi Hprevious. unfold preseed.
  assert (Hsplit : listeners = take i listeners ++ listener :: drop (S i) listeners)
    by by rewrite take_drop_middle.
  rewrite Hsplit, fold_left_app. simpl. rewrite preseedListener_cases, Hprevious.
  eexists. apply preseed_loop_protocol_stable. apply preseedOnce_protocol.
Qed.

(** After a listener has been evaluated its port is claimed. *)
Lemma conflictCheck_claims_port c listener :
  is_Some (portsToProtocol (conflictCheck c listener).2 !! Listener.Port listener).
Proof.
  destruct (portsToProtocol c !! Listener.Port listener) as [claimed|] eqn:Hclaimed.
  - exists claimed. by apply conflictCheck_protocol_stable.
  - rewrite conflictCheck_unclaimed by done. simpl. rewrite lookup_insert_eq. by eexists.
Qed.

(** A TCP or UDP listener that finds its port claimed, for whatever
    protocol, raises a protocol conflict. *)
Lemma conflictCheck_exclusive_listener c listener claimed :
  portsToProtocol c !! Listener.Port listener = Some claimed →
  exclusiveProtocol (Listener.Protocol listener) = true →
  (conflictCheck c listener).1 = Some ListenerReasonProtocolConflict.
Proof.
  intros Hclaimed Hexclusive.
  destruct (exclusiveProtocol claimed) eqn:Hclaim.
  - rewrite (conflictCheck_exclusive c listener claimed); [done|done|].
    unfold exclusiveProtocol in Hclaim.
    apply orb_true_iff in Hclaim as [?%String.eqb_eq|?%String.eqb_eq]; auto.
  - rewrite (conflictCheck_incompatible c listener claimed); [done|done|].
    unfold exclusiveProtocol in Hclaim, Hexclusive.
    apply orb_false_iff in Hclaim as [Htcp Hudp].
    unfold compatible.
    apply orb_true_iff in Hexclusive as [->%String.eqb_eq| ->%String.eqb_eq];
      by rewrite ?Htcp, ?Hudp.
Qed.

Section ExclusiveProofs.
Variable supported : list RouteGroupKind.t.
Variable now : nat → Time.
Variable gateway : Gateway.t.
Variable kongListens : list Listener.t.

Local Abbreviation listeners := (GatewaySpec.Listeners (Gateway.Spec gateway)).
Local Abbreviation previous := (GatewayStatus.Listeners (Gateway.Status gateway)).

Lemma getListenerStatus_exclusive_claimed j listener :
  listeners !! j = Some listener →
  exclusiveProtocol (Listener.Protocol listener) = true →
  is_Some (portsToProtocol
             (claimsAfter (preseed (indexListenerStatuses previous) listeners)
                (take j listeners)) !! Listener.Port listener) →
  ∃ conds,
    statusAt supported now gateway kongListens j = Some conds
    ∧ hasCondition ListenerConditionConflicted ConditionTrue
        ListenerReasonProtocolConflict conds = true.
Proof.
  intros Hj Hexclusive [claimed Hclaimed].
  destruct (getListenerStatus_lookup supported now gateway kongListens j listener Hj)
    as (tick & Hstatus).
  eexists. split; [exact Hstatus|].
  apply listenerConditions_conflict.
  by apply (conflictCheck_exclusive_listener _ _ claimed).
Qed.

(** X16: a TCP or UDP listener is marked Conflicted=True with reason
    ProtocolConflict whenever its port is already claimed when it is
    evaluated: when an earlier spec listener uses the same port, or when
    some listener of that port has a previous Conflicted=False status.
    The latter includes the listener itself: a TCP or UDP listener that
    was Conflicted=False is marked conflicted on the next run, even when
    it is alone on its port. *)
Theorem getListenerStatus_exclusive_port j listener :
  listeners !! j = Some listener →
  exclusiveProtocol (Listener.Protocol listener) = true →
  (∃ i other, (i < j)%nat ∧ listeners !! i = Some other
     ∧ Listener.Port other = Listener.Port listener)
  ∨ (∃ i other, listeners !! i = Some other
       ∧ Listener.Port other = Listener.Port listener
       ∧ previouslyUnconflicted previous other = true) →
  ∃ conds,
    statusAt supported now gateway kongListens j = Some conds
    ∧ hasCondition ListenerConditionConflicted ConditionTrue
        ListenerReasonProtocolConflict conds = true.
Proof.
  intros Hj Hexclusive Hclaimed.
  apply (getListenerStatus_exclusive_claimed j listener Hj Hexclusive).
  destruct Hclaimed as [(i & other & Hlt & Hi & Hport)|(i & other & Hi & Hport & Hprevious)].
  - destruct (take_le_app listeners (S i) j ltac:(lia)) as [rest ->].
    rewrite claimsAfter_app, (claimsAfter_take_S _ _ _ _ Hi), <- Hport.
    destruct (conflictCheck_claims_port
                (claimsAfter (preseed (indexListenerStatuses previous) listeners)
                   (take i listeners)) other) as [claimed Hclaimed].
    exists claimed. by apply claimsAfter_protocol_stable.
  - destruct (preseed_claims_port previous listeners i other Hi Hprevious)
      as [claimed Hclaimed].
    exists claimed. rewrite <- Hport. by apply claimsAfter_protocol_stable.
Qed.

End ExclusiveProofs.

(** A lone TCP listener that was Conflicted=False is marked
    ProtocolConflict. *)
Lemma getListenerStatus_exclusive_port_witness :
  ∃ conds,
    statusAt sampleKinds sampleClock tcpSeededGateway [listen TCPProtocolType 9000] 0 =
      Some conds
    ∧ hasCondition ListenerConditionConflicted ConditionTrue
        ListenerReasonProtocolConflict conds = true.
Proof.
  apply (getListenerStatus_exclusive_port sampleKinds sampleClock tcpSeededGateway
           [listen TCPProtocolType 9000] 0 (Listener.mk "tcp" None 9000 TCPProtocolType)).
  - reflexivity.
  - reflexivity.
  - right. exists 0%nat, (Listener.mk "tcp" None 9000 TCPProtocolType).
    repeat split; reflexivity.
Defined.

Section FirstRunExclusiveProofs.
Variable supported : list RouteGroupKind.t.
Variable now : nat → Time.
Variable gateway : Gateway.t.
Variable kongListens : list Listener.t.
Hypothesis no_previous : GatewayStatus.Listeners (Gateway.Status gateway) = [].

Local Abbreviation listeners := (GatewaySpec.Listeners (Gateway.Spec gateway)).

(** X17: on a Gateway without previous status, once the first listener of
    a port is TCP or UDP, every later listener of that port is marked
    Conflicted=True with reason ProtocolConflict, whatever its protocol
    and hostname, while that first listener gets no Conflicted=True
    condition. *)
Theorem getListenerStatus_exclusive_first i j A B :
  listeners !! i = Some A → listeners !! j = Some B → (i < j)%nat →
  Listener.Port A = Listener.Port B →
  exclusiveProtocol (Listener.Protocol A) = true →
  (∀ k listener, (k < i)%nat → listeners !! k = Some listener →
     Listener.Port listener ≠ Listener.Port A) →
  ∃ condsA condsB,
    statusAt supported now gateway kongListens i = Some condsA
    ∧ statusAt supported now gateway kongListens j = Some condsB
    ∧ hasConditionStatus ListenerConditionConflicted ConditionTrue condsA = false
    ∧ hasCondition ListenerConditionConflicted ConditionTrue
        ListenerReasonProtocolConflict condsB = true.
Proof.
  intros Hi Hj Hlt Hport Hexclusive Hfirst.
  destruct (getListenerStatus_first_on_port supported now gateway kongListens
              no_previous i A Hi Hfirst) as (Hclaim & condsA & HstatusA & HfreeA).
  unfold portView in Hclaim. injection Hclaim as Hpp _.
  destruct (getListenerStatus_lookup supported now gateway kongListens j B Hj)
    as (tick & HstatusB).
  rewrite no_previous, preseed_no_previous in HstatusB.
  exists condsA. eexists. split; [done|]. split; [exact HstatusB|]. split; [done|].
  apply listenerConditions_conflict.
  rewrite (conflictCheck_exclusive _ B (Listener.Protocol A)); [done| |].
  - rewrite <- Hport.
    by apply (claimsAfter_take_protocol_stable _ listeners _ _ (S i) j); [lia|].
  - unfold exclusiveProtocol in Hexclusive.
    apply orb_true_iff in Hexclusive as [?%String.eqb_eq|?%String.eqb_eq]; auto.
Qed.

End FirstRunExclusiveProofs.

(** In [tcpHttpGateway] the TCP listener comes first. *)
Lemma getListenerStatus_exclusive_first_witness :
  ∃ condsA condsB,
    statusAt sampleKinds sampleClock tcpHttpGateway [] 0 = Some condsA
    ∧ statusAt sampleKinds sampleClock tcpHttpGateway [] 1 = Some condsB
    ∧ hasConditionStatus ListenerConditionConflicted ConditionTrue condsA = false
    ∧ hasCondition ListenerConditionConflicted ConditionTrue
        ListenerReasonProtocolConflict condsB = true.
Proof.
  apply (getListenerStatus_exclusive_first sampleKinds sampleClock tcpHttpGateway []
           eq_refl 0 1
           (Listener.mk "tcp" None 80 TCPProtocolType)
           (Listener.mk "http" None 80 HTTPProtocolType)).
  - reflexivity.
  - reflexivity.
  - lia.
  - reflexivity.
  - reflexivity.
  - intros k listener Hk. lia.
Defined.

(** ** Hostname claims *)

(** Every hostname owner after an evaluation step was an owner before or
    is the listener just evaluated. *)
Lemma conflictCheck_owner_origin c listener port hostname owner :
  inner (portsToHostnames (conflictCheck c listener).2) port !! hostname = Some owner →
  inner (portsToHostnames c) port !! hostname = Some owner
  ∨ owner = Listener.Name listener.
Proof.
  unfold conflictCheck.
  destruct (portsToProtocol c !! Listener.Port listener) as [claimed|]; [|by left].
  destruct ((claimed =? TCPProtocolType) || (claimed =? UDPProtocolType)); [by left|].
  destruct ((claimed =? Listener.Protocol listener)
            || (Listener.Protocol listener =? HTTPSProtocolType) && (claimed =? TLSProtocolType)
            || (Listener.Protocol listener =? TLSProtocolType) && (claimed =? HTTPSProtocolType));
    [|by left].
  destruct (inner (ensureHostnames (portsToHostnames c) (Listener.Port listener))
              (Listener.Port listener) !! hostnameOf listener) as [owner'|] eqn:Hlookup.
  - destruct (owner' =? Listener.Name listener); simpl;
      rewrite inner_ensureHostnames; by left.
  - simpl. rewrite inner_setHostname, !inner_ensureHostnames.
    case_decide as Hport; [|by left]. subst port.
    destruct (decide (hostnameOf listener = hostname)) as [<-|Hne].
    + rewrite lookup_insert_eq. intros [= <-]. by right.
    + rewrite lookup_insert_ne by done. by left.
Qed.

(** Without previous status every hostname owner is the name of a
    listener evaluated before. *)
Lemma claimsAfter_owner_origin listeners k port hostname owner :
  inner (portsToHostnames (claimsAfter (mkClaims ∅ ∅) (take k listeners))) port
    !! hostname = Some owner →
  ∃ m listener, (m < k)%nat ∧ listeners !! m = Some listener
    ∧ Listener.Name listener = owner.
Proof.
  induction k as [|k IH].
  - simpl. by rewrite inner_empty, lookup_empty.
  - destruct (listeners !! k) as [listener|] eqn:Hk.
    + rewrite (claimsAfter_take_S _ _ _ _ Hk).
      intros [Hbefore| ->]%conflictCheck_owner_origin.
      * destruct (IH Hbefore) as (m & l & ? & ? & ?). exists m, l. split; [lia|done].
      * exists k, listener. split; [lia|done].
    + apply lookup_ge_None in Hk. rewrite !take_ge in * by lia.
      intros Howner. destruct (IH Howner) as (m & l & ? & ? & ?).
      exists m, l. split; [lia|done].
Qed.

(** A listener that passes the protocol test on a claimed port leaves
    its hostname owned, by itself or by an earlier owner. *)
Lemma conflictCheck_records_hostname c listener claimed :
  portsToProtocol c !! Listener.Port listener = Some claimed →
  claimed ≠ TCPProtocolType → claimed ≠ UDPProtocolType →
  compatible claimed (Listener.Protocol listener) = true →
  is_Some (inner (portsToHostnames (conflictCheck c listener).2)
             (Listener.Port listener) !! hostnameOf listener).
Proof.
  intros Hclaimed Htcp Hudp Hcompatible. unfold conflictCheck. rewrite Hclaimed.
  apply String.eqb_neq in Htcp, Hudp. rewrite Htcp, Hudp. simpl.
  unfold compatible in Hcompatible. rewrite Hcompatible.
  destruct (inner (ensureHostnames (portsToHostnames c) (Listener.Port listener))
              (Listener.Port listener) !! hostnameOf listener) as [owner|] eqn:Hlookup.
  - destruct (owner =? Listener.Name listener); simpl; rewrite Hlookup; by eexists.
  - simpl. rewrite inner_setHostname, decide_True, lookup_insert_eq by done. by eexists.
Qed.

Lemma claimsAfter_take_hostname_stable c listeners port hostname owner k j :
  (k ≤ j)%nat →
  inner (portsToHostnames (claimsAfter c (take k listeners))) port !! hostname = Some owner →
  inner (portsToHostnames (claimsAfter c (take j listeners))) port !! hostname = Some owner.
Proof.
  intros Hle Howner. destruct (take_le_app listeners k j Hle) as [rest ->].
  rewrite claimsAfter_app. by apply claimsAfter_hostname_stable.
Qed.

Section HostnameProofs.
Variable supported : list RouteGroupKind.t.
Variable now : nat → Time.
Variable gateway : Gateway.t.
Variable kongListens : list Listener.t.
Hypothesis no_previous : GatewayStatus.Listeners (Gateway.Status gateway) = [].

Local Abbreviation listeners := (GatewaySpec.Listeners (Gateway.Spec gateway)).

(** X18: on a Gateway without previous status and with distinct listener
    names, hostname uniqueness is enforced from the second listener of a
    port on: when the first listener A of a port is neither TCP nor UDP
    and two later listeners B and C of that port, both of a protocol that
    may share the port with A's, have the same normalized hostname, the
    later one, C, is marked Conflicted=True with reason HostnameConflict. *)
Theorem getListenerStatus_hostname_conflict i j k A B C :
  NoDup (Listener.Name <$> listeners) →
  listeners !! i = Some A → listeners !! j = Some B → listeners !! k = Some C →
  (i < j)%nat → (j < k)%nat →
  Listener.Port B = Listener.Port A → Listener.Port C = Listener.Port A →
  (∀ m listener, (m < i)%nat → listeners !! m = Some listener →
     Listener.Port listener ≠ Listener.Port A) →
  exclusiveProtocol (Listener.Protocol A) = false →
  compatible (Listener.Protocol A) (Listener.Protocol B) = true →
  compatible (Listener.Protocol A) (Listener.Protocol C) = true →
  hostnameOf B = hostnameOf C →
  ∃ conds,
    statusAt supported now gateway kongListens k = Some conds
    ∧ hasCondition ListenerConditionConflicted ConditionTrue
        ListenerReasonHostnameConflict conds = true.
Proof.
  intros Hnames Hi Hj Hk Hij Hjk HportB HportC Hfirst Hexclusive HcompatibleB HcompatibleC
    Hhostname.
  unfold exclusiveProtocol in Hexclusive.
  apply orb_false_iff in Hexclusive as [Htcp%String.eqb_neq Hudp%String.eqb_neq].
  destruct (getListenerStatus_first_on_port supported now gateway kongListens
              no_previous i A Hi Hfirst) as (Hclaim & _).
  unfold portView in Hclaim. injection Hclaim as Hpp _.
  set (c0 := mkClaims ∅ ∅) in *.
  assert (HclaimedB :
    portsToProtocol (claimsAfter c0 (take j listeners)) !! Listener.Port B =
    Some (Listener.Protocol A)).
  { rewrite HportB.
    by apply (claimsAfter_take_protocol_stable _ listeners _ _ (S i) j); [lia|]. }
  assert (HclaimedC :
    portsToProtocol (claimsAfter c0 (take k listeners)) !! Listener.Port C =
    Some (Listener.Protocol A)).
  { rewrite HportC.
    by apply (claimsAfter_take_protocol_stable _ listeners _ _ (S i) k); [lia|]. }
  destruct (conflictCheck_records_hostname (claimsAfter c0 (take j listeners)) B
              (Listener.Protocol A)) as [owner Howner]; [done..|].
  rewrite <- (claimsAfter_take_S _ _ _ _ Hj) in Howner.
  apply (claimsAfter_take_hostname_stable _ listeners _ _ _ (S j) k) in Howner; [|lia].
  destruct (claimsAfter_owner_origin listeners k _ _ _ Howner)
    as (m & listener & Hm & Hlistener & Hname).
  assert (Hne : owner ≠ Listener.Name C).
  { intros ->. assert (m = k); [|lia].
    apply (NoDup_lookup (Listener.Name <$> listeners) m k (Listener.Name C)); [done|..].
    - by rewrite list_lookup_fmap, Hlistener, <- Hname.
    - by rewrite list_lookup_fmap, Hk. }
  destruct (getListenerStatus_lookup supported now gateway kongListens k C Hk)
    as (tick & Hstatus).
  rewrite no_previous, preseed_no_previous in Hstatus. fold c0 in Hstatus.
  eexists. split; [exact Hstatus|].
  apply listenerConditions_conflict.
  rewrite (conflictCheck_shared _ C (Listener.Protocol A)) by done.
  rewrite HportC, <- HportB, <- Hhostname, Howner.
  apply String.eqb_neq in Hne. by rewrite Hne.
Qed.

End HostnameProofs.

(** In [threeHttpGateway] listeners b and c both ask for b.com. *)
Lemma getListenerStatus_hostname_conflict_witness :
  ∃ conds,
    statusAt sampleKinds sampleClock threeHttpGateway hostListens 2 = Some conds
    ∧ hasCondition ListenerConditionConflicted ConditionTrue
        ListenerReasonHostnameConflict conds = true.
Proof.
  apply (getListenerStatus_hostname_conflict sampleKinds sampleClock threeHttpGateway
           hostListens eq_refl 0 1 2
           (Listener.mk "a" (Some "a.com") 80 HTTPProtocolType)
           (Listener.mk "b" (Some "b.com") 80 HTTPProtocolType)
           (Listener.mk "c" (Some "b.com") 80 HTTPProtocolType)).
  - apply (bool_decide_unpack _). reflexivity.
  - reflexivity.
  - reflexivity.
  - reflexivity.
  - lia.
  - lia.
  - reflexivity.
  - reflexivity.
  - intros m listener Hm. lia.
  - reflexivity.
  - reflexivity.
  - reflexivity.
  - reflexivity.
Defined.

(** ** Reconciling again on the stored statuses *)

Lemma filter_unique_name (previous : list ListenerStatus.t) i listenerStatus :
  NoDup (ListenerStatus.Name <$> previous) →
  previous !! i = Some listenerStatus →
  filter (λ other, ListenerStatus.Name other = ListenerStatus.Name listenerStatus) previous =
  [listenerStatus].
Proof.
  revert i. induction previous as [|first previous IH]; intros i Hnames Hi; [done|].
  rewrite fmap_cons in Hnames. apply NoDup_cons in Hnames as [Hfresh Hnames].
  destruct i as [|i]; simpl in Hi.
  - injection Hi as ->. rewrite filter_cons_True by done. f_equal.
    apply elem_of_nil_inv. intros other [Hname Hin]%list_elem_of_filter.
    apply Hfresh. rewrite <- Hname. by apply list_elem_of_fmap_2.
  - rewrite filter_cons_False; [by eapply IH|].
    intros Hname. apply Hfresh. rewrite Hname.
    apply list_elem_of_fmap_2. by eapply list_elem_of_lookup_2.
Qed.

Lemma previousStatus_unique (previous : list ListenerStatus.t) i listenerStatus :
  NoDup (ListenerStatus.Name <$> previous) →
  previous !! i = Some listenerStatus →
  previousStatus previous (ListenerStatus.Name listenerStatus) = Some listenerStatus.
Proof.
  intros Hnames Hi. unfold previousStatus.
  by rewrite (filter_unique_name previous i listenerStatus).
Qed.

Section RerunProofs.
Variable supported : list RouteGroupKind.t.
Variable now : nat → Time.
Variable gateway : Gateway.t.
Variable kongListens : list Listener.t.

Local Abbreviation listeners := (GatewaySpec.Listeners (Gateway.Spec gateway)).
Local Abbreviation stored :=
  (storeListenerStatuses gateway (getListenerStatus supported now gateway kongListens)).

Lemma getListenerStatus_names :
  ListenerStatus.Name <$> getListenerStatus supported now gateway kongListens =
  Listener.Name <$> listeners.
Proof.
  unfold getListenerStatus. cbv zeta.
  edestruct (evalLoop_shape supported now) as (appended & -> & Hall). simpl.
  induction Hall as [|listener status ? ? (Hname & _) _ IH]; [done|].
  by rewrite !fmap_cons, Hname, IH.
Qed.

(** A listener reported Ready=True is previously unconflicted for the
    next run. *)
Lemma stored_previouslyUnconflicted i listener conds :
  NoDup (Listener.Name <$> listeners) →
  listeners !! i = Some listener →
  statusAt supported now gateway kongListens i = Some conds →
  hasCondition ListenerConditionReady ConditionTrue ListenerReasonReady conds = true →
  previouslyUnconflicted (getListenerStatus supported now gateway kongListens) listener = true
  ∧ listensOn kongListens (Listener.Protocol listener) (Listener.Port listener) = true.
Proof.
  intros Hnames Hi Hstatus Hready.
  destruct (getListenerStatus_lookup supported now gateway kongListens i listener Hi)
    as (tick & Hlookup).
  rewrite Hstatus in Hlookup. injection Hlookup as Hconds.
  edestruct (listenerConditions_readiness now) as (Hiff & _ & _ & Hfalse & _).
  rewrite <- Hconds in Hiff, Hfalse. rewrite Hready in Hiff, Hfalse.
  symmetry in Hiff. apply andb_true_iff in Hiff as [_ Hport].
  rewrite indexKongListens_port in Hport.
  split; [|by destruct (listensOn kongListens _ _)].
  unfold statusAt in Hstatus.
  destruct (getListenerStatus supported now gateway kongListens !! i)
    as [status|] eqn:Hout; [|done].
  injection Hstatus as Hstatus.
  assert (Hname : ListenerStatus.Name status = Listener.Name listener).
  { pose proof getListenerStatus_names as Heq.
    apply (f_equal (λ names, names !! i)) in Heq.
    rewrite !list_lookup_fmap, Hout, Hi in Heq. by injection Heq. }
  unfold previouslyUnconflicted.
  rewrite indexListenerStatuses_lookup, <- Hname.
  rewrite (previousStatus_unique _ i status); [by rewrite Hstatus| |done].
  by rewrite getListenerStatus_names.
Qed.

(** X19: reconciliation is not stable for TCP and UDP listeners: when a
    TCP or UDP listener of a Gateway with distinct listener names is
    reported Ready=True and the computed statuses are stored, the next
    run of [getListenerStatus], over any data plane, marks that same
    listener Conflicted=True with reason ProtocolConflict and no longer
    Ready=True. *)
Theorem getListenerStatus_exclusive_flaps kongListens' i listener conds :
  NoDup (Listener.Name <$> listeners) →
  listeners !! i = Some listener →
  exclusiveProtocol (Listener.Protocol listener) = true →
  statusAt supported now gateway kongListens i = Some conds →
  hasCondition ListenerConditionReady ConditionTrue ListenerReasonReady conds = true →
  ∃ conds',
    statusAt supported now stored kongListens' i = Some conds'
    ∧ hasCondition ListenerConditionConflicted ConditionTrue
        ListenerReasonProtocolConflict conds' = true
    ∧ hasCondition ListenerConditionReady ConditionTrue ListenerReasonReady conds' = false.
Proof.
  intros Hnames Hi Hexclusive Hstatus Hready.
  destruct (stored_previouslyUnconflicted i listener conds) as [Hprevious _]; [done..|].
  destruct (getListenerStatus_lookup supported now stored kongListens' i listener Hi)
    as (tick & Hlookup).
  eexists. split; [exact Hlookup|].
  cbn [storeListenerStatuses Gateway.Spec Gateway.Status GatewayStatus.Listeners].
  destruct (preseed_claims_port _ listeners i listener Hi Hprevious) as [claimed Hclaimed].
  apply (claimsAfter_protocol_stable (take i listeners)) in Hclaimed.
  pose proof (conflictCheck_exclusive_listener _ _ _ Hclaimed Hexclusive) as Hconflict.
  split.
  - by apply listenerConditions_conflict.
  - apply not_true_is_false. rewrite listenerConditions_ready. rewrite Hconflict.
    by intros [? _].
Qed.

(** X20: reconciliation is stable for an HTTP, HTTPS or TLS listener that
    is alone on its port: when it is reported Ready=True in a Gateway
    with distinct listener names and the computed statuses are stored,
    the next run over the same data plane reports it Ready=True again,
    without any Conflicted=True condition. *)
Theorem getListenerStatus_lone_listener_stable i listener conds :
  NoDup (Listener.Name <$> listeners) →
  listeners !! i = Some listener →
  hostnameProtocol (Listener.Protocol listener) = true →
  (∀ m other, listeners !! m = Some other → m ≠ i →
     Listener.Port other ≠ Listener.Port listener) →
  statusAt supported now gateway kongListens i = Some conds →
  hasCondition ListenerConditionReady ConditionTrue ListenerReasonReady conds = true →
  ∃ conds',
    statusAt supported now stored kongListens i = Some conds'
    ∧ hasConditionStatus ListenerConditionConflicted ConditionTrue conds' = false
    ∧ hasCondition ListenerConditionReady ConditionTrue ListenerReasonReady conds' = true.
Proof.
  intros Hnames Hi Hprotocol Halone Hstatus Hready.
  destruct (stored_previouslyUnconflicted i listener conds) as [Hprevious Hlistens];
    [done..|].
  assert (Hseeded :
    portView (preseed
                (indexListenerStatuses (getListenerStatus supported now gateway kongListens))
                listeners) (Listener.Port listener) =
    (Some (Listener.Protocol listener), {[hostnameOf listener := Listener.Name listener]})).
  { apply (preseed_single_owner _ listeners i); [done..|].
    intros m other Hm Hne Hport. by destruct (Halone m other Hm Hne). }
  unfold portView in Hseeded. injection Hseeded as Hpp Hph.
  destruct (hostnameProtocol_shared _ Hprotocol) as (Htcp & Hudp & Hself).
  destruct (getListenerStatus_owned supported now stored kongListens i listener
              (Listener.Protocol listener) (Listener.Name listener) Hi)
    as (conds' & Hstatus' & Hfree & _);
    [done
    |cbn [storeListenerStatuses Gateway.Spec Gateway.Status GatewayStatus.Listeners];
     by rewrite Hph, lookup_singleton_eq
    |done..|].
  exists conds'. split; [done|]. split; [by apply Hfree|].
  destruct (getListenerStatus_lookup supported now stored kongListens i listener Hi)
    as (tick & Hlookup).
  rewrite Hstatus' in Hlookup. injection Hlookup as Hconds.
  edestruct (listenerConditions_readiness now) as (Hiff & _).
  rewrite <- Hconds in Hiff. rewrite Hiff, (Hfree Hself eq_refl), indexKongListens_port.
  by rewrite Hlistens.
Qed.

End RerunProofs.

(** The lone TCP listener of [tcpGateway] is ready on the first run and
    conflicted on the second. *)
Lemma getListenerStatus_exclusive_flaps_witness :
  ∃ conds',
    statusAt sampleKinds sampleClock
      (storeListenerStatuses tcpGateway
         (getListenerStatus sampleKinds sampleClock tcpGateway [listen TCPProtocolType 9000]))
      [listen TCPProtocolType 9000] 0 = Some conds'
    ∧ hasCondition ListenerConditionConflicted ConditionTrue
        ListenerReasonProtocolConflict conds' = true
    ∧ hasCondition ListenerConditionReady ConditionTrue ListenerReasonReady conds' = false.
Proof.
  eapply (getListenerStatus_exclusive_flaps sampleKinds sampleClock tcpGateway
            [listen TCPProtocolType 9000] [listen TCPProtocolType 9000] 0
            (Listener.mk "tcp" None 9000 TCPProtocolType)).
  - apply (bool_decide_unpack _). reflexivity.
  - reflexivity.
  - reflexivity.
  - reflexivity.
  - reflexivity.
Defined.

(** The HTTP listener web of [webGateway] is alone on port 80 and stays
    ready. *)
Lemma getListenerStatus_lone_listener_stable_witness :
  ∃ conds',
    statusAt sampleKinds sampleClock
      (storeListenerStatuses webGateway
         (getListenerStatus sampleKinds sampleClock webGateway webListens))
      webListens 0 = Some conds'
    ∧ hasConditionStatus ListenerConditionConflicted ConditionTrue conds' = false
    ∧ hasCondition ListenerConditionReady ConditionTrue ListenerReasonReady conds' = true.
Proof.
  eapply (getListenerStatus_lone_listener_stable sampleKinds sampleClock webGateway
            webListens 0 (Listener.mk "web" None 80 HTTPProtocolType)).
  - apply (bool_decide_unpack _). reflexivity.
  - reflexivity.
  - reflexivity.
  - intros m other Hm Hne. destruct m as [|[|m]]; [done| |done].
    injection Hm as <-. discriminate.
  - reflexivity.
  - reflexivity.
Defined.

(** ** The sample Gateways again *)

(** The listener web of [webGateway] is listened on: no Detached
    condition. *)
Lemma getListenerStatus_detachment_witness :
  ∃ conds,
    statusAt sampleKinds sampleClock webGateway webListens 0 = Some conds
    ∧ hasCondition ListenerConditionDetached ConditionTrue
        ListenerReasonUnsupportedProtocol conds = false
    ∧ hasCondition ListenerConditionDetached ConditionTrue
        ListenerReasonPortUnavailable conds = false
    ∧ countType ListenerConditionDetached conds = 0%nat.
Proof.
  apply (getListenerStatus_detachment sampleKinds sampleClock webGateway webListens 0
           (Listener.mk "web" None 80 HTTPProtocolType)).
  reflexivity.
Defined.

Lemma getListenerStatus_single_conflicted_ready_witness :
  ∃ conds,
    statusAt sampleKinds sampleClock webGateway webListens 1 = Some conds
    ∧ (countType ListenerConditionConflicted conds ≤ 1)%nat
    ∧ countType ListenerConditionReady conds = 1%nat.
Proof.
  apply (getListenerStatus_single_conflicted_ready sampleKinds sampleClock webGateway
           webListens 1 (Listener.mk "web-tls" (Some "a.com") 443 HTTPSProtocolType)).
  reflexivity.
Defined.

(** The two HTTPS listeners of [twoHttpsGateway] ask for the same
    hostname and neither is marked. *)
Lemma getListenerStatus_second_on_port_witness :
  ∃ condsA condsB,
    statusAt sampleKinds sampleClock twoHttpsGateway hostListens 0 = Some condsA
    ∧ statusAt sampleKinds sampleClock twoHttpsGateway hostListens 1 = Some condsB
    ∧ hasConditionStatus ListenerConditionConflicted ConditionTrue condsA = false
    ∧ hasConditionStatus ListenerConditionConflicted ConditionTrue condsB = false.
Proof.
  apply (getListenerStatus_second_on_port sampleKinds sampleClock twoHttpsGateway
           hostListens eq_refl 0 1
           (Listener.mk "a" (Some "a.com") 80 HTTPSProtocolType)
           (Listener.mk "b" (Some "a.com") 80 HTTPSProtocolType)).
  - reflexivity.
  - reflexivity.
  - lia.
  - reflexivity.
  - discriminate.
  - discriminate.
  - reflexivity.
  - intros k listener Hlt Hne. destruct k as [|k]; [done|lia].
Defined.

(** The conditions of the first status of [webGateway] are observed at
    generation 1. *)
Lemma getListenerStatus_emitted_witness :
  Forall (emittedCondition 1%Z)
    (ListenerStatus.Conditions
       (ListenerStatus.mk "web" sampleKinds 0%Z
          [Condition.mk ListenerConditionConflicted ConditionFalse 1%Z 0%Z
             ListenerReasonNoConflicts "";
           Condition.mk ListenerConditionReady ConditionTrue 1%Z 1%Z ListenerReasonReady
             "the listener is ready and available for routing"])).
Proof.
  apply (getListenerStatus_emitted sampleKinds sampleClock webGateway webListens).
  vm_compute. apply list_elem_of_here.
Defined.

Lemma getListenerStatus_readiness_witness :
  ∃ conds,
    statusAt sampleKinds sampleClock webGateway webListens 0 = Some conds
    ∧ hasCondition ListenerConditionReady ConditionTrue ListenerReasonReady conds =
        negb (hasConditionStatus ListenerConditionConflicted ConditionTrue conds) && true
    ∧ hasCondition ListenerConditionReady ConditionFalse ListenerReasonPending conds =
        negb (hasCondition ListenerConditionReady ConditionTrue ListenerReasonReady conds)
    ∧ hasCondition ListenerConditionConflicted ConditionFalse ListenerReasonNoConflicts conds =
        hasCondition ListenerConditionReady ConditionTrue ListenerReasonReady conds
    ∧ hasConditionStatus ListenerConditionConflicted ConditionFalse conds =
        hasCondition ListenerConditionReady ConditionTrue ListenerReasonReady conds
    ∧ ∃ ready, last conds = Some ready ∧ Condition.Type_ ready = ListenerConditionReady.
Proof.
  apply (getListenerStatus_readiness sampleKinds sampleClock webGateway webListens 0
           (Listener.mk "web" None 80 HTTPProtocolType)).
  reflexivity.
Defined.

Lemma getListenerStatus_no_listens_witness :
  ∃ conds,
    statusAt sampleKinds sampleClock webGateway [] 0 = Some conds
    ∧ hasCondition ListenerConditionDetached ConditionTrue
        ListenerReasonUnsupportedProtocol conds = true
    ∧ hasCondition ListenerConditionDetached ConditionTrue
        ListenerReasonPortUnavailable conds = true
    ∧ hasCondition ListenerConditionReady ConditionFalse ListenerReasonPending conds = true
    ∧ hasCondition ListenerConditionReady ConditionTrue ListenerReasonReady conds = false.
Proof.
  apply (getListenerStatus_no_listens sampleKinds sampleClock webGateway 0
           (Listener.mk "web" None 80 HTTPProtocolType)).
  reflexivity.
Defined.

(** ** Scheduling and generations *)

(** X21: [isGatewayScheduled] depends on the top-level conditions only:
    two Gateways with the same conditions agree on it whatever their
    generations, so a spec change does not revoke scheduling; whereas
    [isGatewayReady] is false as soon as no condition was observed at the
    Gateway's current generation. *)
Theorem isGatewayScheduled_generation gateway gateway' :
  Gateway.Conditions gateway' = Gateway.Conditions gateway →
  isGatewayScheduled gateway' = isGatewayScheduled gateway
  ∧ ((∀ cond, cond ∈ Gateway.Conditions gateway →
        Condition.ObservedGeneration cond ≠ Gateway.Generation gateway') →
     isGatewayReady gateway' = false).
Proof.
  intros Hconds. split.
  - unfold isGatewayScheduled. by rewrite Hconds.
  - intros Hstale. apply isGatewayReady_stale. by rewrite Hconds.
Qed.

(** A Gateway scheduled and ready at generation 1 stays scheduled at
    generation 2 but is no longer ready. *)
Lemma isGatewayScheduled_generation_witness :
  isGatewayScheduled
    (sampleGateway 2
       [sampleCondition GatewayConditionScheduled ConditionTrue GatewayReasonScheduled 1%Z;
        sampleCondition GatewayConditionReady ConditionTrue GatewayReasonReady 1%Z] [] []) =
  true
  ∧ isGatewayReady
      (sampleGateway 2
         [sampleCondition GatewayConditionScheduled ConditionTrue GatewayReasonScheduled 1%Z;
          sampleCondition GatewayConditionReady ConditionTrue GatewayReasonReady 1%Z] [] []) =
    false.
Proof.
  destruct (isGatewayScheduled_generation
              (sampleGateway 1
                 [sampleCondition GatewayConditionScheduled ConditionTrue
                    GatewayReasonScheduled 1%Z;
                  sampleCondition GatewayConditionReady ConditionTrue
                    GatewayReasonReady 1%Z] [] [])
              (sampleGateway 2
                 [sampleCondition GatewayConditionScheduled ConditionTrue
                    GatewayReasonScheduled 1%Z;
                  sampleCondition GatewayConditionReady ConditionTrue
                    GatewayReasonReady 1%Z] [] []) eq_refl) as [Hscheduled Hready].
  split; [exact Hscheduled|]. apply Hready.
  intros cond Hin. repeat (apply elem_of_cons in Hin as [->|Hin]; [discriminate|]).
  by apply elem_of_nil in Hin.
Defined.
